(** * Shopify draft-order App Proxy: a shallow embedding of [server.js]

    The development follows the server file function by function:
    [safeEqual], [hmacBase64], [hmacHex], [verifyProxy], [adminGraphQL],
    [gidToLegacyId], [mapDraftOrderNode] and the two route handlers
    [GET /devis] and [GET /devis/:id].

    Conventions of the embedding.
    - A JavaScript string is identified with the byte string of its UTF-8
      encoding (Rocq's [string]).  Every string that reaches the server
      (header values, the raw URL, decoded query components, JSON text) is
      well formed, so [Buffer.from(s, "utf8")] is the list of its bytes.
    - Bytes and 32-bit words are numbers of [N]; word arithmetic wraps with
      an explicit mask.
    - JavaScript values are the inductive [value]; an exception is the
      [Throw] case of [result].
    - A route handler is a computation of [io]: it threads the list of the
      upstream calls made so far and ends in a response or an exception.
      The upstream is a function from the call to what [fetch] settles to.
    - Node's byte conversion of arrays and objects, which a repeated or
      bracketed query parameter can reach, stays a parameter of the server. *)

From Stdlib Require Import NArith ZArith Lia List Bool Ascii String.
From stdpp Require Import base option list strings gmap sorting pretty.
Import ListNotations.

Set Warnings "-register-all".

Local Open Scope list_scope.

(** ** Bytes and strings *)

Definition bytes := list N.

(** [Buffer.from(s, "utf8")] on a string. *)
Definition utf8 (s : string) : bytes := map N_of_ascii (list_ascii_of_string s).

Definition string_of_bytes (bs : bytes) : string :=
  string_of_list_ascii (map ascii_of_N bs).

(** ** SHA-256 (FIPS 180-4), the digest behind [crypto.createHmac("sha256", _)] *)

Module SHA256.

Local Open Scope N_scope.

Definition mask32 : N := 4294967295.

Definition add32 (x y : N) : N := N.land (x + y) mask32.

Definition rotr (n x : N) : N :=
  N.land (N.lor (N.shiftr x n) (N.shiftl x (32 - n))) mask32.

Definition choose (x y z : N) : N :=
  N.lxor (N.land x y) (N.land (N.lxor x mask32) z).

Definition majority (x y z : N) : N :=
  N.lxor (N.lxor (N.land x y) (N.land x z)) (N.land y z).

Definition big_sigma0 (x : N) : N := N.lxor (N.lxor (rotr 2 x) (rotr 13 x)) (rotr 22 x).
Definition big_sigma1 (x : N) : N := N.lxor (N.lxor (rotr 6 x) (rotr 11 x)) (rotr 25 x).
Definition small_sigma0 (x : N) : N := N.lxor (N.lxor (rotr 7 x) (rotr 18 x)) (N.shiftr x 3).
Definition small_sigma1 (x : N) : N := N.lxor (N.lxor (rotr 17 x) (rotr 19 x)) (N.shiftr x 10).

(** Round constants: the first 32 bits of the fractional parts of the cube
    roots of the first 64 primes. *)
Definition round_constants : list N :=
  [ 1116352408; 1899447441; 3049323471; 3921009573; 961987163; 1508970993;
    2453635748; 2870763221; 3624381080; 310598401; 607225278; 1426881987;
    1925078388; 2162078206; 2614888103; 3248222580; 3835390401; 4022224774;
    264347078; 604807628; 770255983; 1249150122; 1555081692; 1996064986;
    2554220882; 2821834349; 2952996808; 3210313671; 3336571891; 3584528711;
    113926993; 338241895; 666307205; 773529912; 1294757372; 1396182291;
    1695183700; 1986661051; 2177026350; 2456956037; 2730485921; 2820302411;
    3259730800; 3345764771; 3516065817; 3600352804; 4094571909; 275423344;
    430227734; 506948616; 659060556; 883997877; 958139571; 1322822218;
    1537002063; 1747873779; 1955562222; 2024104815; 2227730452; 2361852424;
    2428436474; 2756734187; 3204031479; 3329325298 ].

(** The eight working registers. *)
Record regs := Regs {
  ra : N; rb : N; rc : N; rd : N; re : N; rf : N; rg : N; rh : N }.

Definition initial_hash : regs :=
  Regs 1779033703 3144134277 1013904242 2773480762
       1359893119 2600822924 528734635 1541459225.

Definition step (s : regs) (kw : N * N) : regs :=
  let t1 := add32 (add32 (add32 (add32 (rh s) (big_sigma1 (re s)))
                                (choose (re s) (rf s) (rg s))) (fst kw)) (snd kw) in
  let t2 := add32 (big_sigma0 (ra s)) (majority (ra s) (rb s) (rc s)) in
  Regs (add32 t1 t2) (ra s) (rb s) (rc s) (add32 (rd s) t1) (re s) (rf s) (rg s).

(** Message schedule: sixteen block words extended to sixty-four. *)
Fixpoint extend (n : nat) (w : list N) : list N :=
  match n with
  | O => w
  | S n' =>
      let t := length w in
      let x := add32 (add32 (add32 (small_sigma1 (nth (t - 2) w 0))
                                   (nth (t - 7) w 0))
                            (small_sigma0 (nth (t - 15) w 0)))
                     (nth (t - 16) w 0) in
      extend n' (w ++ [x])
  end.

Definition compress (h : regs) (block : list N) : regs :=
  let s := fold_left step (combine round_constants (extend 48 block)) h in
  Regs (add32 (ra h) (ra s)) (add32 (rb h) (rb s)) (add32 (rc h) (rc s))
       (add32 (rd h) (rd s)) (add32 (re h) (re s)) (add32 (rf h) (rf s))
       (add32 (rg h) (rg s)) (add32 (rh h) (rh s)).

Fixpoint words_of_bytes (bs : list N) : list N :=
  match bs with
  | a :: b :: c :: d :: rest =>
      (((a * 256 + b) * 256 + c) * 256 + d) :: words_of_bytes rest
  | _ => []
  end.

Definition bytes_of_word (w : N) : list N :=
  [ N.shiftr w 24 mod 256; N.shiftr w 16 mod 256; N.shiftr w 8 mod 256; w mod 256 ].

Definition bytes_of_length (bits : N) : list N :=
  bytes_of_word (N.shiftr bits 32 mod 4294967296) ++ bytes_of_word (bits mod 4294967296).

(** Padding: a one bit, zero bytes up to 56 modulo 64, the bit length. *)
Definition pad (msg : list N) : list N :=
  let len := length msg in
  let zeros := ((64 - (len + 9) mod 64) mod 64)%nat in
  msg ++ [128] ++ repeat 0 zeros ++ bytes_of_length (8 * N.of_nat len).

Fixpoint hash_blocks (fuel : nat) (ws : list N) (h : regs) : regs :=
  match fuel, ws with
  | S fuel', _ :: _ => hash_blocks fuel' (skipn 16 ws) (compress h (firstn 16 ws))
  | _, _ => h
  end.

Definition digest_bytes (h : regs) : list N :=
  bytes_of_word (ra h) ++ bytes_of_word (rb h) ++ bytes_of_word (rc h) ++
  bytes_of_word (rd h) ++ bytes_of_word (re h) ++ bytes_of_word (rf h) ++
  bytes_of_word (rg h) ++ bytes_of_word (rh h).

Definition sha256 (msg : list N) : list N :=
  let ws := words_of_bytes (pad msg) in
  digest_bytes (hash_blocks (length ws) ws initial_hash).

(** HMAC (RFC 2104) with a 64-byte block. *)
Definition hmac (key msg : list N) : list N :=
  let k0 := if (64 <? length key)%nat then sha256 key else key in
  let k := k0 ++ repeat 0 (64 - length k0)%nat in
  sha256 (map (N.lxor 92) k ++ sha256 (map (N.lxor 54) k ++ msg)).

End SHA256.

(** ** The two digest encodings of Node's [Hmac.digest] *)

Definition hex_digit (n : N) : N :=
  if (n <? 10)%N then (48 + n)%N else (87 + n)%N.

Definition hex_encode (bs : bytes) : string :=
  string_of_bytes (flat_map (fun b => [hex_digit (b / 16 mod 16); hex_digit (b mod 16)]%N) bs).

Definition base64_digit (n : N) : N :=
  if (n <? 26)%N then (65 + n)%N
  else if (n <? 52)%N then (71 + n)%N
  else if (n <? 62)%N then (n - 4)%N
  else if (n =? 62)%N then 43%N else 47%N.

Fixpoint base64_bytes (bs : bytes) : bytes :=
  match bs with
  | [] => []
  | [a] =>
      [ base64_digit (a / 4 mod 64); base64_digit (a mod 4 * 16); 61; 61 ]%N
  | [a; b] =>
      [ base64_digit (a / 4 mod 64); base64_digit (a mod 4 * 16 + b / 16 mod 16);
        base64_digit (b mod 16 * 4); 61 ]%N
  | a :: b :: c :: rest =>
      [ base64_digit (a / 4 mod 64); base64_digit (a mod 4 * 16 + b / 16 mod 16);
        base64_digit (b mod 16 * 4 + c / 64 mod 4); base64_digit (c mod 64) ]%N
      ++ base64_bytes rest
  end.

Definition base64_encode (bs : bytes) : string := string_of_bytes (base64_bytes bs).

(** [crypto.createHmac("sha256", secret).update(raw, "utf8").digest("base64")] *)
Definition hmacBase64 (secret raw : string) : string :=
  base64_encode (SHA256.hmac (utf8 secret) (utf8 raw)).

(** [crypto.createHmac("sha256", secret).update(raw, "utf8").digest("hex")] *)
Definition hmacHex (secret raw : string) : string :=
  hex_encode (SHA256.hmac (utf8 secret) (utf8 raw)).


(** ** JavaScript values

    Query parameters as Express parses them and JSON bodies as the upstream
    returns them are untyped.  [VNum] covers the integer-valued numbers;
    objects are association lists read at their first binding of a key. *)

Inductive value :=
| VUndef
| VNull
| VBool (b : bool)
| VNum (n : Z)
| VStr (s : string)
| VArr (xs : list value)
| VObj (fields : list (string * value)).

(** ToBoolean, the test of [if], [!], [||], [&&] and [?:]. *)
Definition truthy (v : value) : bool :=
  match v with
  | VUndef | VNull => false
  | VBool b => b
  | VNum n => negb (n =? 0)%Z
  | VStr s => negb (String.eqb s "")
  | VArr _ | VObj _ => true
  end.

(** [a || b] *)
Definition js_or (a b : value) : value := if truthy a then a else b.

(** [v == null]: the values on which a property read throws and at which
    [?.] stops. *)
Definition nullish (v : value) : bool :=
  match v with
  | VUndef | VNull => true
  | _ => false
  end.

(** ToString, as [String(v)] and template literals apply it. *)
Fixpoint toString (v : value) : string :=
  match v with
  | VUndef => "undefined"
  | VNull => "null"
  | VBool true => "true"
  | VBool false => "false"
  | VNum n => pretty n
  | VStr s => s
  | VArr xs =>
      String.concat ","
        (map (fun x => if nullish x then "" else toString x) xs)
  | VObj _ => "[object Object]"
  end.

Fixpoint assoc (k : string) (fields : list (string * value)) : value :=
  match fields with
  | [] => VUndef
  | (k', v) :: rest => if String.eqb k k' then v else assoc k rest
  end.

(** ** Exceptions *)

Inductive exn := Exn (name message : string).

Definition message (e : exn) : string := match e with Exn _ m => m end.

Definition TypeError (msg : string) : exn := Exn "TypeError" msg.
Definition RangeError (msg : string) : exn := Exn "RangeError" msg.
Definition Error (msg : string) : exn := Exn "Error" msg.

Inductive result (A : Type) :=
| Ok (a : A)
| Throw (e : exn).
Arguments Ok {A} a.
Arguments Throw {A} e.

#[global] Instance result_ret : MRet result := fun A a => Ok a.
#[global] Instance result_bind : MBind result := fun A B f m =>
  match m with
  | Ok a => f a
  | Throw e => Throw e
  end.

(** [try { m } catch { h }] *)
Definition try_catch {A} (m : result A) (h : exn -> result A) : result A :=
  match m with
  | Ok a => Ok a
  | Throw e => h e
  end.

(** [v.k] for the property names the server reads ([id], [name], [edges],
    [node], [errors], [data], ...): a TypeError on [null] and [undefined],
    the own property of an object, and [undefined] on every other value,
    none of these names being inherited from a prototype. *)
Definition get (v : value) (k : string) : result value :=
  match v with
  | VUndef => Throw (TypeError ("Cannot read properties of undefined (reading '" +:+ k +:+ "')"))
  | VNull => Throw (TypeError ("Cannot read properties of null (reading '" +:+ k +:+ "')"))
  | VObj fields => Ok (assoc k fields)
  | _ => Ok VUndef
  end.

(** [v?.k] *)
Definition opt_get (v : value) (k : string) : value :=
  match v with
  | VObj fields => assoc k fields
  | _ => VUndef
  end.

Fixpoint mapM {A B} (f : A -> result B) (xs : list A) : result (list B) :=
  match xs with
  | [] => Ok []
  | x :: rest =>
      match f x with
      | Ok y => match mapM f rest with Ok ys => Ok (y :: ys) | Throw e => Throw e end
      | Throw e => Throw e
      end
  end.

(** [v.map(f)]: only an array has the method. *)
Definition array_map (f : value -> result value) (v : value) : result value :=
  match v with
  | VArr xs => match mapM f xs with Ok ys => Ok (VArr ys) | Throw e => Throw e end
  | VUndef | VNull => Throw (TypeError "Cannot read properties of undefined (reading 'map')")
  | _ => Throw (TypeError "map is not a function")
  end.

(** ** String methods used by the server *)

(** [s.startsWith(p)] *)
Definition startsWith (s p : string) : bool := String.prefix p s.

(** [s.includes(p)] *)
Definition includes (s p : string) : bool :=
  match String.index 0 p s with
  | Some _ => true
  | None => false
  end.

(** [s.split(sep)] for a one-character separator: never empty. *)
Fixpoint split (s : string) (sep : ascii) : list string :=
  match s with
  | EmptyString => [EmptyString]
  | String c s' =>
      if Ascii.eqb c sep then EmptyString :: split s' sep
      else match split s' sep with
           | piece :: pieces => String c piece :: pieces
           | [] => [String c EmptyString]
           end
  end.

(** [xs.pop()]: the last element, [undefined] on an empty array. *)
Definition pop (xs : list string) : value :=
  match last xs with
  | Some x => VStr x
  | None => VUndef
  end.

Definition is_digit (c : ascii) : bool :=
  (48 <=? N_of_ascii c)%N && (N_of_ascii c <=? 57)%N.

Fixpoint all_digits (s : string) : bool :=
  match s with
  | EmptyString => true
  | String c s' => is_digit c && all_digits s'
  end.

(** [/^\d+$/.test(v)]: the argument is converted to a string; one or more
    ASCII digits and nothing else. *)
Definition digits_test (v : value) : bool :=
  let s := toString v in negb (String.eqb s "") && all_digits s.

Definition lower_ascii (c : ascii) : ascii :=
  let n := N_of_ascii c in
  if (65 <=? n)%N && (n <=? 90)%N then ascii_of_N (n + 32) else c.

(** [s.toLowerCase()] on the ASCII letters.  No character outside ASCII
    lower-cases to one of the letters of ["items"], the only word the result
    is compared with. *)
Fixpoint toLowerCase (s : string) : string :=
  match s with
  | EmptyString => EmptyString
  | String c s' => String (lower_ascii c) (toLowerCase s')
  end.

(** [JSON.stringify] on a defined value. *)
Definition dquote : string := String (ascii_of_N 34) EmptyString.
Definition backslash : string := String (ascii_of_N 92) EmptyString.

Definition json_escape_char (c : ascii) : string :=
  let n := N_of_ascii c in
  if (n =? 34)%N then backslash +:+ dquote
  else if (n =? 92)%N then backslash +:+ backslash
  else if (n =? 8)%N then backslash +:+ "b"
  else if (n =? 9)%N then backslash +:+ "t"
  else if (n =? 10)%N then backslash +:+ "n"
  else if (n =? 12)%N then backslash +:+ "f"
  else if (n =? 13)%N then backslash +:+ "r"
  else if (n <? 32)%N then
    backslash +:+ "u00" +:+ string_of_bytes [hex_digit (n / 16); hex_digit (n mod 16)]
  else String c EmptyString.

Fixpoint json_escape (s : string) : string :=
  match s with
  | EmptyString => EmptyString
  | String c s' => json_escape_char c +:+ json_escape s'
  end.

Definition json_quote (s : string) : string := dquote +:+ json_escape s +:+ dquote.

Fixpoint JSON_stringify (v : value) : string :=
  match v with
  | VUndef | VNull => "null"
  | VBool true => "true"
  | VBool false => "false"
  | VNum n => pretty n
  | VStr s => json_quote s
  | VArr xs => "[" +:+ String.concat "," (map JSON_stringify xs) +:+ "]"
  | VObj fields =>
      "{" +:+ String.concat ","
        (flat_map (fun kv =>
           match kv with
           | (_, VUndef) => []
           | (k, x) => [json_quote k +:+ ":" +:+ JSON_stringify x]
           end) fields) +:+ "}"
  end.

(** ** Requests, configuration, responses and the upstream *)

(** The parts of an Express request the server reads. *)
Record request := {
  headers : gmap string string;
  query : gmap string value;
  originalUrl : string;
  params_id : string }.

(** [req.headers[name]] *)
Definition header (req : request) (name : string) : value :=
  match headers req !! name with
  | Some s => VStr s
  | None => VUndef
  end.

(** [req.query[name]] *)
Definition query_param (req : request) (name : string) : value :=
  match query req !! name with
  | Some v => v
  | None => VUndef
  end.

(** [process.env] *)
Record environment := {
  APP_PROXY_SHARED_SECRET : option string;
  SHOP_DOMAIN : option string;
  ADMIN_API_VERSION : option string;
  ADMIN_ACCESS_TOKEN : option string }.

Definition env_value (o : option string) : value :=
  match o with
  | Some s => VStr s
  | None => VUndef
  end.

Record response := {
  res_status : N;
  res_headers : list (string * string);
  res_body : value }.

(** [res.status(code).json({ error })] *)
Definition error_response (code : N) (err : string) : response :=
  {| res_status := code; res_headers := []; res_body := VObj [("error", VStr err)] |}.

(** One [fetch] of the Admin API: the URL, the access-token header and the
    two members of the JSON body. *)
Record fetch_call := {
  call_url : string;
  call_token : string;
  call_query : string;
  call_variables : value }.

(** What the upstream answers: the status line, what [resp.text()] and what
    [resp.json()] settle to. *)
Record fetch_response := {
  resp_status : N;
  resp_text : result string;
  resp_json : result value }.

(** [resp.ok] *)
Definition resp_ok (r : fetch_response) : bool :=
  (200 <=? resp_status r)%N && (resp_status r <=? 299)%N.

(** A handler runs against the upstream and logs every call it makes. *)
Definition io (A : Type) : Type := list fetch_call -> result A * list fetch_call.

#[global] Instance io_ret : MRet io := fun A a log => (Ok a, log).
#[global] Instance io_bind : MBind io := fun A B f m log =>
  match m log with
  | (Ok a, log') => f a log'
  | (Throw e, log') => (Throw e, log')
  end.

Definition lift {A} (r : result A) : io A := fun log => (r, log).

Definition throw {A} (e : exn) : io A := fun log => (Throw e, log).

Definition io_catch {A} (m : io A) (h : exn -> io A) : io A := fun log =>
  match m log with
  | (Ok a, log') => (Ok a, log')
  | (Throw e, log') => h e log'
  end.

(** [await fetch(...)]: the call is logged, then the promise settles. *)
Definition do_fetch (fetch : fetch_call -> result fetch_response) (c : fetch_call)
  : io fetch_response := fun log => (fetch c, log ++ [c]).

(** Keys are compared as [Array.prototype.sort] does without a comparator,
    lexicographically.  On UTF-8 bytes this is the order of code points; it
    is the order of UTF-16 code units for all keys but those that set a
    character above U+FFFF against one from U+E000 to U+FFFF. *)
Definition key_le (a b : string) : Prop := String.leb a b = true.

#[global] Instance key_le_dec (a b : string) : Decision (key_le a b).
Proof. unfold key_le. apply _. Defined.

#[global] Instance key_le_total : Total key_le.
Proof. intros a b. apply String.leb_total. Qed.

(** [Object.keys(o).sort()] *)
Definition sorted_keys (o : gmap string value) : list string :=
  merge_sort key_le (map fst (map_to_list o)).

(** ** The GraphQL documents *)

Definition list_lineItemsFrag : string :=
  "
        lineItems(first: 50) {
          edges { node { title quantity variantTitle } }
        }".

Definition list_query (lineItemsFrag : string) : string :=
  "
      query ListDraftOrders($first:Int!, $after:String, $q:String!) {
        draftOrders(first: $first, after: $after, query: $q) {
          pageInfo { hasNextPage hasPreviousPage startCursor endCursor }
          edges {
            cursor
            node {
              id
              legacyResourceId
              name
              createdAt
              status
              invoiceUrl
              totalPriceSet { presentmentMoney { amount currencyCode } }
              customer { id }
              "
  +:+ lineItemsFrag +:+
  "
            }
          }
        }
      }
    ".

Definition one_lineItemsFrag : string :=
  "
        lineItems(first: 50) { edges { node { title quantity variantTitle } } }
      ".

Definition one_query (lineItemsFrag : string) : string :=
  "
      query OneDraftOrder($id: ID!) {
        draftOrder(id: $id) {
          id
          legacyResourceId
          name
          createdAt
          status
          invoiceUrl
          totalPriceSet { presentmentMoney { amount currencyCode } }
          "
  +:+ lineItemsFrag +:+
  "
        }
      }
    ".

(** ** The server *)

Section Server.

(** [Buffer.from(v, "utf8")] on an array or an object is Node's byte
    conversion of array-likes: it yields bytes or throws.  It is no code of
    the server and stays a parameter. *)
Variable bufferFromObject : value -> result bytes.

(** [process.env] and the global [fetch].  [adminGraphQL] is the one of the
    full server file, which checks its three variables before the call. *)
Variable env : environment.
Variable fetch : fetch_call -> result fetch_response.

(** [Buffer.from(v, "utf8")] *)
Definition Buffer_from (v : value) : result bytes :=
  match v with
  | VStr s => Ok (utf8 s)
  | VArr _ | VObj _ => bufferFromObject v
  | VUndef | VNull | VBool _ | VNum _ =>
      Throw (TypeError "The first argument must be of type string or an instance of Buffer, ArrayBuffer, or Array or an Array-like Object.")
  end.

(** [crypto.timingSafeEqual(x, y)] *)
Definition timingSafeEqual (x y : bytes) : result bool :=
  if (length x =? length y)%nat then Ok (bool_decide (x = y))
  else Throw (RangeError "Input buffers must have the same byte length").

Definition safeEqual_try (a b : value) : result bool :=
  x ← Buffer_from a;
  y ← Buffer_from b;
  timingSafeEqual x y.

Definition safeEqual (a b : value) : result bool :=
  try_catch (safeEqual_try a b) (fun _ => Ok false).

(** The candidate messages of [verifyProxy]. *)
Definition apps_path (raw1 : string) : string :=
  "/apps" +:+ (if startsWith raw1 "/" then "" else "/") +:+ raw1.

Definition legacy_message (rest : gmap string value) : string :=
  String.concat ""
    (map (fun k => k +:+ "=" +:+ toString (default VUndef (rest !! k))) (sorted_keys rest)).

(** [req.headers["x-shopify-proxy-signature"] || req.headers["x-shopify-hmac-sha256"]] *)
Definition headerSig (req : request) : value :=
  js_or (header req "x-shopify-proxy-signature") (header req "x-shopify-hmac-sha256").

Definition verifyProxy (req : request) : result bool :=
  let secret := default "" (APP_PROXY_SHARED_SECRET env) in
  if negb (truthy (VStr secret)) then Ok false else
  let headerSig := headerSig req in
  let legacySig := query_param req "signature" in
  let rest := delete "signature" (query req) in
  let legacy : result bool :=
    if truthy legacySig then
      let sorted := legacy_message rest in
      let hex := hmacHex secret sorted in
      ok ← safeEqual legacySig (VStr hex);
      if ok : bool then Ok true else Ok false
    else Ok false in
  if truthy headerSig then
    let raw1 := originalUrl req in
    let sig1 := hmacBase64 secret raw1 in
    ok1 ← safeEqual headerSig (VStr sig1);
    if ok1 : bool then Ok true else
    let raw2 := apps_path raw1 in
    let sig2 := hmacBase64 secret raw2 in
    ok2 ← safeEqual headerSig (VStr sig2);
    if ok2 : bool then Ok true else legacy
  else legacy.

Definition adminGraphQL (query : string) (variables : value) : io value :=
  let shop := env_value (SHOP_DOMAIN env) in
  let version := env_value (ADMIN_API_VERSION env) in
  let token := env_value (ADMIN_ACCESS_TOKEN env) in
  if negb (truthy shop) || negb (truthy version) || negb (truthy token) then
    throw (Error "Missing env: SHOP_DOMAIN, ADMIN_API_VERSION, or ADMIN_ACCESS_TOKEN")
  else
  let url := "https://" +:+ toString shop +:+ "/admin/api/" +:+ toString version
             +:+ "/graphql.json" in
  resp ← do_fetch fetch {| call_url := url; call_token := toString token;
                           call_query := query; call_variables := variables |};
  if negb (resp_ok resp) then
    let txt := match resp_text resp with Ok t => t | Throw _ => "" end in
    throw (Error ("[AdminAPI] HTTP " +:+ pretty (resp_status resp) +:+ ": " +:+ txt))
  else
  json ← lift (resp_json resp);
  errors ← lift (get json "errors");
  if truthy errors then
    throw (Error ("[AdminAPI] GraphQL errors: " +:+ JSON_stringify errors))
  else lift (get json "data").

Definition gidToLegacyId (gid : value) : value :=
  if negb (truthy gid) then VNull else
  let s := toString gid in
  let from_gid :=
    if startsWith s "gid://" then
      let last := pop (split s "/") in
      if digits_test last then Some last else None
    else None in
  match from_gid with
  | Some last => last
  | None => if digits_test (VStr s) then VStr s else VNull
  end.

Definition mapLineItem (edge : value) : result value :=
  li ← get edge "node";
  title ← get li "title";
  quantity ← get li "quantity";
  variantTitle ← get li "variantTitle";
  Ok (VObj [("title", title); ("quantity", quantity);
            ("variantTitle", js_or variantTitle (VStr ""))]).

Definition mapDraftOrderNode (node : value) (includeItems : bool) : result value :=
  id ← get node "id";
  legacyResourceId ← get node "legacyResourceId";
  name ← get node "name";
  createdAt ← get node "createdAt";
  status ← get node "status";
  invoiceUrl ← get node "invoiceUrl";
  totalPriceSet ← get node "totalPriceSet";
  total ← (if truthy (opt_get totalPriceSet "presentmentMoney") then
             presentmentMoney ← get totalPriceSet "presentmentMoney";
             amount ← get presentmentMoney "amount";
             currencyCode ← get presentmentMoney "currencyCode";
             Ok (VStr (toString amount +:+ " " +:+ toString currencyCode))
           else Ok VNull);
  spread ← (if includeItems then
              lineItems ← get node "lineItems";
              if truthy lineItems then
                edges ← get lineItems "edges";
                items ← array_map mapLineItem (js_or edges (VArr []));
                Ok [("lineItems", items)]
              else Ok []
            else Ok []);
  Ok (VObj ([("id", id); ("legacyResourceId", legacyResourceId); ("name", name);
             ("createdAt", createdAt); ("status", status); ("invoiceUrl", invoiceUrl);
             ("total", total)] ++ spread)).

(** [String(req.query.include || "").toLowerCase() === "items"] *)
Definition include_items (req : request) : bool :=
  String.eqb (toLowerCase (toString (js_or (query_param req "include") (VStr "")))) "items".

Definition no_cache : list (string * string) :=
  [("Cache-Control", "no-store, no-cache, must-revalidate"); ("Pragma", "no-cache")].

(** [app.get("/devis", ...)] *)
Definition devis_list (req : request) : io response :=
  io_catch
    (ok ← lift (verifyProxy req);
     if negb ok then mret (error_response 401 "invalid_signature") else
     let customerParam := query_param req "customer_id" in
     if negb (truthy customerParam) then mret (error_response 400 "missing customer_id") else
     let customerLegacyId := gidToLegacyId customerParam in
     if negb (truthy customerLegacyId) then mret (error_response 400 "bad customer_id") else
     let after := js_or (query_param req "after") VNull in
     let includeItems := include_items req in
     let lineItemsFrag := if includeItems then list_lineItemsFrag else "" in
     let variables :=
       VObj [("first", VNum 10); ("after", after);
             ("q", VStr ("customer_id:" +:+ toString customerLegacyId))] in
     data ← adminGraphQL (list_query lineItemsFrag) variables;
     let edges := js_or (opt_get (opt_get data "draftOrders") "edges") (VArr []) in
     let pageInfo := js_or (opt_get (opt_get data "draftOrders") "pageInfo") (VObj []) in
     quotes ← lift (array_map
                      (fun edge => node ← get edge "node"; mapDraftOrderNode node includeItems)
                      edges);
     mret {| res_status := 200; res_headers := no_cache;
             res_body := VObj [("quotes", quotes); ("pageInfo", pageInfo)] |})
    (fun e => mret (error_response 500 "server_error")).

(** The identifier [GET /devis/:id] looks up. *)
Definition lookup_id (rawId : value) : value :=
  let legacy := gidToLegacyId rawId in
  if truthy legacy && negb (startsWith (toString rawId) "gid://")
  then VStr ("gid://shopify/DraftOrder/" +:+ toString legacy)
  else rawId.

(** [app.get("/devis/:id", ...)] *)
Definition devis_one (req : request) : io response :=
  io_catch
    (ok ← lift (verifyProxy req);
     if negb ok then mret (error_response 401 "invalid_signature") else
     let rawId := VStr (params_id req) in
     let includeItems := include_items req in
     let gid := lookup_id rawId in
     let lineItemsFrag := if includeItems then one_lineItemsFrag else "" in
     data ← adminGraphQL (one_query lineItemsFrag) (VObj [("id", gid)]);
     let n := opt_get data "draftOrder" in
     if negb (truthy n) then mret (error_response 404 "not_found") else
     quote ← lift (mapDraftOrderNode n includeItems);
     mret {| res_status := 200; res_headers := no_cache;
             res_body := VObj [("quote", quote)] |})
    (fun e =>
       if includes (toString (VStr (message e))) "HTTP 404"
       then mret (error_response 404 "not_found")
       else mret (error_response 500 "server_error")).

End Server.

(** ** The words of the specification *)

(** The request carries, in the signature header the server reads, the
    base64 HMAC of the raw path and query, as sent or mounted under [/apps]. *)
Definition header_matches (secret : string) (req : request) : Prop :=
  exists hs, headerSig req = VStr hs /\
    (hs = hmacBase64 secret (originalUrl req) \/
     hs = hmacBase64 secret (apps_path (originalUrl req))).

(** The legacy [signature] parameter compares equal to the hex HMAC of the
    remaining parameters, sorted by key and concatenated as [key=value]. *)
Definition legacy_matches (bfo : value -> result bytes) (secret : string)
    (req : request) : Prop :=
  safeEqual bfo (query_param req "signature")
    (VStr (hmacHex secret (legacy_message (delete "signature" (query req))))) = Ok true.

(** A valid secret-derived signature: a non-empty secret is configured and
    the header or the legacy parameter matches it. *)
Definition valid_signature (bfo : value -> result bytes) (env : environment)
    (req : request) : Prop :=
  exists secret, APP_PROXY_SHARED_SECRET env = Some secret /\ secret <> "" /\
    (header_matches secret req \/ legacy_matches bfo secret req).

(** A numeral: one or more ASCII digits. *)
Definition numeral (s : string) : bool := negb (String.eqb s "") && all_digits s.

(** What follows the last [/] of a string that has one. *)
Fixpoint after_last_slash (s : string) : option string :=
  match s with
  | EmptyString => None
  | String c s' =>
      match after_last_slash s' with
      | Some t => Some t
      | None => if Ascii.eqb c "/" then Some s' else None
      end
  end.

Definition ends_in_numeral (s : string) : bool :=
  match after_last_slash s with
  | Some t => numeral t
  | None => false
  end.


(** The identifiers [gidToLegacyId] resolves: a bare numeral, or a string
    that starts with [gid://] and ends in a numeral after its last [/]. *)
Definition resolvable_id (s : string) : bool :=
  numeral s || (startsWith s "gid://" && ends_in_numeral s).

(** The Admin API is configured: the three variables are set and not empty. *)
Definition configured (env : environment) : bool :=
  truthy (env_value (SHOP_DOMAIN env)) && truthy (env_value (ADMIN_API_VERSION env))
  && truthy (env_value (ADMIN_ACCESS_TOKEN env)).

(** The call [adminGraphQL] makes of a query and its variables. *)
Definition admin_call (env : environment) (query : string) (variables : value) : fetch_call :=
  {| call_url := "https://" +:+ toString (env_value (SHOP_DOMAIN env)) +:+ "/admin/api/"
                 +:+ toString (env_value (ADMIN_API_VERSION env)) +:+ "/graphql.json";
     call_token := toString (env_value (ADMIN_ACCESS_TOKEN env));
     call_query := query;
     call_variables := variables |}.

(** An entry of [lineItems.edges] the mapping can read: neither the entry
    nor its [node] is [null] or [undefined]. *)
Definition edge_ok (edge : value) : bool :=
  negb (nullish edge) && negb (nullish (opt_get edge "node")).

(** The line items of a node are well formed: [lineItems] is falsy, or its
    [edges] is falsy or an array of readable entries. *)
Definition items_ok (node : value) : bool :=
  let lineItems := opt_get node "lineItems" in
  negb (truthy lineItems) ||
  match js_or (opt_get lineItems "edges") (VArr []) with
  | VArr es => forallb edge_ok es
  | _ => false
  end.

(** The record of the specification: the total ... *)
Definition spec_total (node : value) : value :=
  let money := opt_get (opt_get node "totalPriceSet") "presentmentMoney" in
  if truthy money
  then VStr (toString (opt_get money "amount") +:+ " " +:+ toString (opt_get money "currencyCode"))
  else VNull.

(** ... one line item ... *)
Definition spec_line_item (edge : value) : value :=
  let li := opt_get edge "node" in
  VObj [("title", opt_get li "title"); ("quantity", opt_get li "quantity");
        ("variantTitle", js_or (opt_get li "variantTitle") (VStr ""))].

Definition spec_line_items (node : value) : list value :=
  match opt_get (opt_get node "lineItems") "edges" with
  | VArr es => map spec_line_item es
  | _ => []
  end.

(** ... and the whole record, the line items being present only on demand. *)
Definition spec_record (node : value) (includeItems : bool) : list (string * value) :=
  [("id", opt_get node "id"); ("legacyResourceId", opt_get node "legacyResourceId");
   ("name", opt_get node "name"); ("createdAt", opt_get node "createdAt");
   ("status", opt_get node "status"); ("invoiceUrl", opt_get node "invoiceUrl");
   ("total", spec_total node)]
  ++ (if includeItems && truthy (opt_get node "lineItems")
      then [("lineItems", VArr (spec_line_items node))]
      else []).

(** ** Sample configuration and requests *)

Definition sample_env : environment :=
  {| APP_PROXY_SHARED_SECRET := Some "s3cret";
     SHOP_DOMAIN := Some "shop.example";
     ADMIN_API_VERSION := Some "2024-01";
     ADMIN_ACCESS_TOKEN := Some "shpat_token" |}.

(** A byte conversion that refuses every array and object. *)
Definition reject_objects : value -> result bytes :=
  fun _ => Throw (TypeError "The first argument must be of type string").

(** Signed as sent. *)
Definition req_signed : request :=
  {| headers := {[ "x-shopify-proxy-signature" := "asw/q9qubKqRshs0X44Z0coiaYzEndviXVVVsTB6NcQ=" ]};
     query := {[ "customer_id" := VStr "123" ]};
     originalUrl := "/devis?customer_id=123";
     params_id := "" |}.

(** Signed as mounted under [/apps], in the second header. *)
Definition req_signed_apps : request :=
  {| headers := {[ "x-shopify-hmac-sha256" := "Cg1dGur82gVOlbGwg1u9DD7OPtKxD/RHReXHcF7RKFk=" ]};
     query := {[ "customer_id" := VStr "123" ]};
     originalUrl := "/devis?customer_id=123";
     params_id := "" |}.

(** Both headers, the first one wrong: the first is the one compared. *)
Definition req_two_headers : request :=
  {| headers := {[ "x-shopify-proxy-signature" := "bm90IGEgc2lnbmF0dXJl";
                   "x-shopify-hmac-sha256" := "asw/q9qubKqRshs0X44Z0coiaYzEndviXVVVsTB6NcQ=" ]};
     query := {[ "customer_id" := VStr "123" ]};
     originalUrl := "/devis?customer_id=123";
     params_id := "" |}.

(** Signed the legacy way: the hex HMAC of [a=1b=2]. *)
Definition req_legacy : request :=
  {| headers := ∅;
     query := {[ "b" := VStr "2"; "a" := VStr "1";
                 "signature" := VStr "77110e91a4fe9a0b41b41b9c13ed6cf9228970ac260c793751bd99044eae69b9" ]};
     originalUrl := "/devis?b=2&a=1&signature=77110e91a4fe9a0b41b41b9c13ed6cf9228970ac260c793751bd99044eae69b9";
     params_id := "" |}.

(** Not signed at all. *)
Definition req_unsigned : request :=
  {| headers := ∅;
     query := {[ "customer_id" := VStr "123" ]};
     originalUrl := "/devis?customer_id=123";
     params_id := "42" |}.

(** Upstream nodes. *)
Definition node_priced : value :=
  VObj [("id", VStr "gid://shopify/DraftOrder/987"); ("legacyResourceId", VStr "987");
        ("name", VStr "#D12"); ("createdAt", VStr "2024-05-01T10:00:00Z");
        ("status", VStr "OPEN"); ("invoiceUrl", VStr "https://shop.example/invoices/987");
        ("totalPriceSet",
         VObj [("presentmentMoney",
                VObj [("amount", VStr "10.00"); ("currencyCode", VStr "USD")])]);
        ("lineItems",
         VObj [("edges",
                VArr [VObj [("node", VObj [("title", VStr "Chair"); ("quantity", VNum 2);
                                           ("variantTitle", VStr "Oak")])];
                      VObj [("node", VObj [("title", VStr "Table"); ("quantity", VNum 1)])]])])].


(** A node whose line-item connection holds a null entry. *)
Definition node_null_edge : value :=
  VObj [("id", VStr "gid://shopify/DraftOrder/5"); ("lineItems", VObj [("edges", VArr [VNull])])].

(** Requests of the two routes, signed as sent. *)
Definition req_list (customer_id : string) : request :=
  let url := "/devis?customer_id=" +:+ customer_id in
  {| headers := {[ "x-shopify-proxy-signature" := hmacBase64 "s3cret" url ]};
     query := {[ "customer_id" := VStr customer_id ]};
     originalUrl := url;
     params_id := "" |}.

Definition req_one (id : string) : request :=
  let url := "/devis/" +:+ id in
  {| headers := {[ "x-shopify-proxy-signature" := hmacBase64 "s3cret" url ]};
     query := ∅;
     originalUrl := url;
     params_id := id |}.

(** Upstreams: one that is never reached, one that knows no such draft
    order, one that fails with a status and a body. *)
Definition upstream_down : fetch_call -> result fetch_response :=
  fun _ => Throw (TypeError "fetch failed").

Definition upstream_null_node : fetch_call -> result fetch_response :=
  fun _ => Ok {| resp_status := 200;
                 resp_text := Ok "";
                 resp_json := Ok (VObj [("data", VObj [("draftOrder", VNull)])]) |}.

Definition upstream_fails (status : N) (body : string) : fetch_call -> result fetch_response :=
  fun _ => Ok {| resp_status := status;
                 resp_text := Ok body;
                 resp_json := Throw (Exn "SyntaxError" "Unexpected token in JSON") |}.

(** ** The other versions of the server

    The repository holds two earlier versions of the file.  [server.js]
    differs from the full file in [adminGraphQL], which does not check the
    configuration.  The first version has a single route that calls the
    upstream itself and maps the nodes in place. *)

Module ServerJs.

(** [adminGraphQL] of [server.js] *)
Definition adminGraphQL (env : environment)
    (fetch : fetch_call -> result fetch_response)
    (query : string) (variables : value) : io value :=
  let url := "https://" +:+ toString (env_value (SHOP_DOMAIN env)) +:+ "/admin/api/"
             +:+ toString (env_value (ADMIN_API_VERSION env)) +:+ "/graphql.json" in
  resp ← do_fetch fetch
           {| call_url := url;
              call_token := toString (js_or (env_value (ADMIN_ACCESS_TOKEN env)) (VStr ""));
              call_query := query; call_variables := variables |};
  if negb (resp_ok resp) then
    let txt := match resp_text resp with Ok t => t | Throw _ => "" end in
    throw (Error ("[AdminAPI] HTTP " +:+ pretty (resp_status resp) +:+ ": " +:+ txt))
  else
  json ← lift (resp_json resp);
  errors ← lift (get json "errors");
  if truthy errors then
    throw (Error ("[AdminAPI] GraphQL errors: " +:+ JSON_stringify errors))
  else lift (get json "data").

End ServerJs.

Module FirstVersion.

Definition devis_query : string :=
  "#graphql
  query ListDraftOrders($after: String, $q: String!) {
    draftOrders(first: 10, after: $after, query: $q) {
      pageInfo { hasNextPage hasPreviousPage startCursor endCursor }
      edges {
        node {
          id
          name
          createdAt
          status
          invoiceUrl
          totalPriceSet { presentmentMoney { amount currencyCode } }
          customer { id }
        }
      }
    }
  }
".

(** [customerGid.split("/").pop()]: only a string has the method. *)
Definition split_pop (v : value) : result value :=
  match v with
  | VStr s => Ok (pop (split s "/"))
  | VUndef | VNull =>
      Throw (TypeError "Cannot read properties of undefined (reading 'split')")
  | _ => Throw (TypeError "customerGid.split is not a function")
  end.

(** The record built in place of each node. *)
Definition mapNode (node : value) : result value :=
  id ← get node "id";
  name ← get node "name";
  createdAt ← get node "createdAt";
  status ← get node "status";
  invoiceUrl ← get node "invoiceUrl";
  totalPriceSet ← get node "totalPriceSet";
  total ← (if truthy (opt_get totalPriceSet "presentmentMoney") then
             presentmentMoney ← get totalPriceSet "presentmentMoney";
             amount ← get presentmentMoney "amount";
             currencyCode ← get presentmentMoney "currencyCode";
             Ok (VStr (toString amount +:+ " " +:+ toString currencyCode))
           else Ok VNull);
  Ok (VObj [("id", id); ("name", name); ("createdAt", createdAt); ("status", status);
            ("invoiceUrl", invoiceUrl); ("total", total)]).

(** The call the route makes of the variables. *)
Definition devis_call (env : environment) (variables : value) : fetch_call :=
  {| call_url := "https://" +:+ toString (env_value (SHOP_DOMAIN env)) +:+ "/admin/api/"
                 +:+ toString (env_value (ADMIN_API_VERSION env)) +:+ "/graphql.json";
     call_token := toString (js_or (env_value (ADMIN_ACCESS_TOKEN env)) (VStr ""));
     call_query := devis_query;
     call_variables := variables |}.

(** [app.get("/devis", ...)] of the first version *)
Definition devis (bfo : value -> result bytes) (env : environment)
    (fetch : fetch_call -> result fetch_response) (req : request) : io response :=
  io_catch
    (ok ← lift (verifyProxy bfo env req);
     if negb ok then mret (error_response 401 "invalid_signature") else
     let customerGid := query_param req "customer_id" in
     let after := js_or (query_param req "after") VNull in
     if negb (truthy customerGid) then mret (error_response 400 "missing customer_id") else
     numericId ← lift (split_pop customerGid);
     let variables :=
       VObj [("after", after); ("q", VStr ("customer_id:" +:+ toString numericId))] in
     resp ← do_fetch fetch (devis_call env variables);
     if negb (resp_ok resp) then
       txt ← lift (resp_text resp);
       mret (error_response (resp_status resp) "admin_api_error")
     else
     json ← lift (resp_json resp);
     errors ← lift (get json "errors");
     if truthy errors then mret (error_response 500 "graphql_errors") else
     let draftOrders := opt_get (opt_get json "data") "draftOrders" in
     let edges := js_or (opt_get draftOrders "edges") (VArr []) in
     let pageInfo := js_or (opt_get draftOrders "pageInfo") (VObj []) in
     quotes ← lift (array_map (fun edge => node ← get edge "node"; mapNode node) edges);
     mret {| res_status := 200; res_headers := [];
             res_body := VObj [("quotes", quotes); ("pageInfo", pageInfo)] |})
    (fun e => mret (error_response 500 "server_error")).

End FirstVersion.

(** ** Further notions for the statements *)

(** The request with one header set. *)
Definition with_header (name v : string) (req : request) : request :=
  {| headers := <[name := v]> (headers req);
     query := query req;
     originalUrl := originalUrl req;
     params_id := params_id req |}.

(** A lowercase hexadecimal digit. *)
Definition is_lower_hex (c : ascii) : bool :=
  let n := N_of_ascii c in
  ((48 <=? n)%N && (n <=? 57)%N) || ((97 <=? n)%N && (n <=? 102)%N).

Fixpoint all_lower_hex (s : string) : bool :=
  match s with
  | EmptyString => true
  | String c s' => is_lower_hex c && all_lower_hex s'
  end.

(** The upstream calls of the two routes. *)
Definition list_call (env : environment) (req : request) : fetch_call :=
  admin_call env (list_query (if include_items req then list_lineItemsFrag else ""))
    (VObj [("first", VNum 10); ("after", js_or (query_param req "after") VNull);
           ("q", VStr ("customer_id:"
                       +:+ toString (gidToLegacyId (query_param req "customer_id"))))]).

Definition one_call (env : environment) (req : request) : fetch_call :=
  admin_call env (one_query (if include_items req then one_lineItemsFrag else ""))
    (VObj [("id", lookup_id (VStr (params_id req)))]).

(** The call of the first version's route. *)
Definition first_call (env : environment) (req : request) (numericId : string) : fetch_call :=
  FirstVersion.devis_call env
    (VObj [("after", js_or (query_param req "after") VNull);
           ("q", VStr ("customer_id:" +:+ numericId))]).


(** ** Further samples *)






(** An upstream that answers 200 with a JSON body. *)
Definition upstream_json (json : value) : fetch_call -> result fetch_response :=
  fun _ => Ok {| resp_status := 200; resp_text := Ok ""; resp_json := Ok json |}.


Definition payload_one (node : value) : value :=
  VObj [("data", VObj [("draftOrder", node)])].


(** The detail route asked for the line items. *)
Definition req_one_items (id : string) : request :=
  let url := "/devis/" +:+ id +:+ "?include=items" in
  {| headers := {[ "x-shopify-proxy-signature" := hmacBase64 "s3cret" url ]};
     query := {[ "include" := VStr "items" ]};
     originalUrl := url;
     params_id := id |}.

(** The list route with the identifier given twice. *)
Definition req_list_twice : request :=
  let url := "/devis?customer_id=1&customer_id=2" in
  {| headers := {[ "x-shopify-proxy-signature" := hmacBase64 "s3cret" url ]};
     query := {[ "customer_id" := VArr [VStr "1"; VStr "2"] ]};
     originalUrl := url;
     params_id := "" |}.

(** ** Proof support *)

Create HintDb handlers.
#[export] Hint Unfold devis_list devis_one io_catch lift : handlers.

(** Unfold a handler down to its first pending computation. *)
Ltac run_handler := autounfold with handlers; unfold mbind, io_bind.

(** * Properties *)

(** ** Encodings and digests *)

Lemma string_of_bytes_utf8 (s : string) : string_of_bytes (utf8 s) = s.
Proof.
  unfold string_of_bytes, utf8. rewrite map_map.
  rewrite (map_ext _ (fun a => a)) by (intros a; apply ascii_N_embedding).
  rewrite map_id. apply string_of_list_ascii_of_string.
Qed.

Lemma utf8_inj (a b : string) : utf8 a = utf8 b -> a = b.
Proof.
  intros H. rewrite <- (string_of_bytes_utf8 a), <- (string_of_bytes_utf8 b).
  now rewrite H.
Qed.

Lemma utf8_length (s : string) : length (utf8 s) = String.length s.
Proof.
  unfold utf8. rewrite length_map.
  induction s as [|c s IH]; simpl; [reflexivity | now rewrite IH].
Qed.

Lemma string_of_bytes_length (bs : bytes) : String.length (string_of_bytes bs) = length bs.
Proof.
  unfold string_of_bytes.
  induction bs as [|b bs IH]; simpl; [reflexivity | now rewrite IH].
Qed.

Lemma sha256_length (msg : list N) : length (SHA256.sha256 msg) = 32%nat.
Proof. reflexivity. Qed.

Lemma hmac_length (key msg : list N) : length (SHA256.hmac key msg) = 32%nat.
Proof. apply sha256_length. Qed.

Lemma hex_encode_length (bs : bytes) : String.length (hex_encode bs) = (2 * length bs)%nat.
Proof.
  unfold hex_encode. rewrite string_of_bytes_length.
  induction bs as [|b bs IH]; simpl; [reflexivity | rewrite IH; lia].
Qed.

Lemma base64_bytes_length_32 (bs : bytes) :
  length bs = 32%nat -> length (base64_bytes bs) = 44%nat.
Proof.
  intros H.
  do 32 (destruct bs as [|? bs]; [discriminate H|]).
  destruct bs; [reflexivity | discriminate H].
Qed.

Lemma hmacHex_length (secret raw : string) : String.length (hmacHex secret raw) = 64%nat.
Proof. unfold hmacHex. rewrite hex_encode_length, hmac_length. reflexivity. Qed.

Lemma hmacBase64_length (secret raw : string) : String.length (hmacBase64 secret raw) = 44%nat.
Proof.
  unfold hmacBase64, base64_encode. rewrite string_of_bytes_length.
  apply base64_bytes_length_32, hmac_length.
Qed.

Lemma truthy_VStr (s : string) : truthy (VStr s) = true <-> s <> "".
Proof.
  simpl. destruct (String.eqb_spec s ""); simpl; split; congruence.
Qed.

Lemma hmacBase64_truthy (secret raw : string) : truthy (VStr (hmacBase64 secret raw)) = true.
Proof.
  apply truthy_VStr. intros H.
  pose proof (hmacBase64_length secret raw) as L. rewrite H in L. discriminate L.
Qed.

(** ** The comparison and the verifier *)

Section Verifier.

Variable bfo : value -> result bytes.
Variable env : environment.

Lemma safeEqual_returns (a b : value) : exists r, safeEqual bfo a b = Ok r.
Proof.
  unfold safeEqual, try_catch.
  destruct (safeEqual_try bfo a b); eauto.
Qed.


Lemma safeEqual_strings (a b : string) :
  safeEqual bfo (VStr a) (VStr b) = Ok (bool_decide (a = b)).
Proof.
  unfold safeEqual, safeEqual_try, timingSafeEqual. simpl.
  destruct (Nat.eqb_spec (length (utf8 a)) (length (utf8 b))) as [L|L]; simpl.
  - f_equal. apply bool_decide_ext. split; [apply utf8_inj | congruence].
  - f_equal. symmetry. apply bool_decide_eq_false. congruence.
Qed.

Lemma safeEqual_strings_true (a b : string) :
  safeEqual bfo (VStr a) (VStr b) = Ok true <-> a = b.
Proof.
  rewrite safeEqual_strings. split.
  - intros H. injection H as H. now apply bool_decide_eq_true in H.
  - intros ->. f_equal. now apply bool_decide_eq_true.
Qed.

(** A falsy value never compares equal to a digest of 64 characters. *)
Lemma safeEqual_falsy (v : value) (hex : string) :
  truthy v = false -> String.length hex = 64%nat -> safeEqual bfo v (VStr hex) = Ok false.
Proof.
  intros F L. destruct v; try reflexivity; try discriminate F.
  rewrite safeEqual_strings. f_equal. apply bool_decide_eq_false.
  intros ->. simpl in F. destruct (String.eqb_spec hex "") as [E|E]; [|discriminate F].
  rewrite E in L. discriminate L.
Qed.


Lemma headerSig_cases (req : request) :
  headerSig req = VUndef \/ exists hs, headerSig req = VStr hs.
Proof.
  unfold headerSig, js_or, header.
  destruct (headers req !! "x-shopify-proxy-signature") as [h1|];
    destruct (headers req !! "x-shopify-hmac-sha256") as [h2|]; simpl;
    try destruct (negb (String.eqb h1 "")); eauto.
Qed.

(** The legacy branch of [verifyProxy] amounts to its comparison. *)
Lemma legacy_branch (sig : value) (hex : string) :
  String.length hex = 64%nat ->
  (if truthy sig
   then ok ← safeEqual bfo sig (VStr hex); if ok : bool then Ok true else Ok false
   else Ok false) = safeEqual bfo sig (VStr hex).
Proof.
  intros L. destruct (truthy sig) eqn:T.
  - destruct (safeEqual_returns sig (VStr hex)) as [[|] ->]; reflexivity.
  - symmetry. now apply safeEqual_falsy.
Qed.

Lemma verifyProxy_no_secret (req : request) :
  default "" (APP_PROXY_SHARED_SECRET env) = "" -> verifyProxy bfo env req = Ok false.
Proof. intros H. unfold verifyProxy. rewrite H. reflexivity. Qed.

Lemma verifyProxy_header (req : request) (secret : string) :
  APP_PROXY_SHARED_SECRET env = Some secret -> secret <> "" ->
  header_matches secret req -> verifyProxy bfo env req = Ok true.
Proof.
  intros Hs Hne (hs & Hh & Hm). unfold verifyProxy.
  rewrite Hs. cbn [default from_option id].
  apply truthy_VStr in Hne. rewrite Hne. cbn [negb].
  rewrite Hh.
  assert (truthy (VStr hs) = true) as ->
    by (destruct Hm as [-> | ->]; apply hmacBase64_truthy).
  rewrite !safeEqual_strings. cbn [mbind result_bind].
  destruct Hm as [-> | ->].
  - now rewrite bool_decide_eq_true_2.
  - case_bool_decide; [reflexivity|]. now rewrite bool_decide_eq_true_2.
Qed.

Lemma verifyProxy_legacy_only (req : request) (secret : string) :
  APP_PROXY_SHARED_SECRET env = Some secret -> secret <> "" ->
  ~ header_matches secret req ->
  verifyProxy bfo env req
  = safeEqual bfo (query_param req "signature")
      (VStr (hmacHex secret (legacy_message (delete "signature" (query req))))).
Proof.
  intros Hs Hne Hm. unfold verifyProxy.
  rewrite Hs. cbn [default from_option id].
  apply truthy_VStr in Hne. rewrite Hne. cbn [negb]. cbv zeta.
  rewrite legacy_branch by apply hmacHex_length.
  destruct (headerSig_cases req) as [-> | [hs Hh]]; [reflexivity|].
  rewrite Hh. destruct (truthy (VStr hs)); [|reflexivity].
  rewrite !safeEqual_strings. cbn [mbind result_bind].
  case_bool_decide as E1; [exfalso; apply Hm; exists hs; auto|].
  case_bool_decide as E2; [exfalso; apply Hm; exists hs; auto|].
  reflexivity.
Qed.

Lemma header_matches_dec (secret : string) (req : request) :
  header_matches secret req \/ ~ header_matches secret req.
Proof.
  unfold header_matches.
  destruct (headerSig_cases req) as [E | [hs E]].
  - right. intros (hs & H & _). congruence.
  - destruct (decide (hs = hmacBase64 secret (originalUrl req))) as [E1|E1];
      [left; eauto|].
    destruct (decide (hs = hmacBase64 secret (apps_path (originalUrl req)))) as [E2|E2];
      [left; eauto|].
    right. intros (hs' & H & [?|?]); congruence.
Qed.

Lemma verifyProxy_returns (req : request) : exists r, verifyProxy bfo env req = Ok r.
Proof.
  destruct (APP_PROXY_SHARED_SECRET env) as [secret|] eqn:Hs.
  - destruct (decide (secret = "")) as [->|Hne].
    + exists false. apply verifyProxy_no_secret. now rewrite Hs.
    + destruct (header_matches_dec secret req) as [Hm|Hm].
      * exists true. eapply verifyProxy_header; eauto.
      * rewrite (verifyProxy_legacy_only req secret) by assumption.
        apply safeEqual_returns.
  - exists false. apply verifyProxy_no_secret. now rewrite Hs.
Qed.

End Verifier.

(** ** Signature verification: the claims *)


Section Verification.

Variable bfo : value -> result bytes.
Variable env : environment.

Lemma headerSig_first (req : request) (s : string) :
  headers req !! "x-shopify-proxy-signature" = Some s -> s <> "" ->
  headerSig req = VStr s.
Proof.
  intros H Hne. unfold headerSig, js_or, header. rewrite H.
  apply truthy_VStr in Hne. now rewrite Hne.
Qed.





Lemma verifyProxy_true_iff (req : request) :
  verifyProxy bfo env req = Ok true <-> valid_signature bfo env req.
Proof.
  split.
  - intros H. destruct (APP_PROXY_SHARED_SECRET env) as [secret|] eqn:Hs.
    + destruct (decide (secret = "")) as [->|Hne].
      * rewrite verifyProxy_no_secret in H by now rewrite Hs. discriminate H.
      * exists secret. repeat split; try assumption.
        destruct (header_matches_dec secret req) as [Hm|Hm]; [now left|right].
        unfold legacy_matches.
        now rewrite <- (verifyProxy_legacy_only bfo env req secret Hs Hne Hm).
    + rewrite verifyProxy_no_secret in H by now rewrite Hs. discriminate H.
  - intros (secret & Hs & Hne & Hm).
    destruct (header_matches_dec secret req) as [Hh|Hh].
    + eapply verifyProxy_header; eauto.
    + destruct Hm as [Hm|Hm]; [contradiction|].
      now rewrite (verifyProxy_legacy_only bfo env req secret Hs Hne Hh).
Qed.



End Verification.

(** ** Witnesses *)





(** ** The node-to-record mapping *)

Lemma get_opt_get (v : value) (k : string) :
  nullish v = false -> get v k = Ok (opt_get v k).
Proof. destruct v; intros H; try discriminate H; reflexivity. Qed.

Lemma truthy_not_nullish (v : value) : truthy v = true -> nullish v = false.
Proof. destruct v; intros H; try discriminate H; reflexivity. Qed.


Lemma mapLineItem_ok (edge : value) :
  edge_ok edge = true -> mapLineItem edge = Ok (spec_line_item edge).
Proof.
  unfold edge_ok, mapLineItem, spec_line_item. intros H.
  apply andb_true_iff in H as [H1 H2].
  apply negb_true_iff in H1, H2.
  rewrite (get_opt_get edge) by assumption. cbn [mbind result_bind].
  rewrite !(get_opt_get (opt_get edge "node")) by assumption. reflexivity.
Qed.

Lemma mapLineItem_throws (edge : value) :
  edge_ok edge = false -> exists e, mapLineItem edge = Throw e.
Proof.
  unfold edge_ok, mapLineItem. intros H.
  destruct edge; try (eexists; reflexivity); simpl in H |- *;
    try discriminate H; cbn [mbind result_bind].
  destruct (assoc "node" fields); try discriminate H; eexists; reflexivity.
Qed.

Lemma mapM_mapLineItem_ok (es : list value) :
  forallb edge_ok es = true -> mapM mapLineItem es = Ok (map spec_line_item es).
Proof.
  induction es as [|e es IH]; simpl; [reflexivity|].
  intros H. apply andb_true_iff in H as [H1 H2].
  now rewrite (mapLineItem_ok e H1), (IH H2).
Qed.

Lemma mapM_mapLineItem_throws (es : list value) :
  forallb edge_ok es = false -> exists e, mapM mapLineItem es = Throw e.
Proof.
  induction es as [|x es IH]; simpl; [discriminate|].
  destruct (edge_ok x) eqn:Hx; simpl.
  - intros H. destruct (IH H) as [e He]. rewrite (mapLineItem_ok x Hx), He. eauto.
  - intros _. destruct (mapLineItem_throws x Hx) as [e ->]. eauto.
Qed.

(** The total of the record never throws. *)
Lemma total_ok (tps : value) :
  (if truthy (opt_get tps "presentmentMoney") then
     presentmentMoney ← get tps "presentmentMoney";
     amount ← get presentmentMoney "amount";
     currencyCode ← get presentmentMoney "currencyCode";
     Ok (VStr (toString amount +:+ " " +:+ toString currencyCode))
   else Ok VNull)
  = Ok (let money := opt_get tps "presentmentMoney" in
        if truthy money
        then VStr (toString (opt_get money "amount") +:+ " "
                   +:+ toString (opt_get money "currencyCode"))
        else VNull).
Proof.
  cbv zeta. destruct (truthy (opt_get tps "presentmentMoney")) eqn:T; [|reflexivity].
  assert (nullish tps = false) as Hn
    by (destruct tps; try reflexivity; discriminate T).
  rewrite (get_opt_get tps) by assumption. cbn [mbind result_bind].
  rewrite !(get_opt_get (opt_get tps "presentmentMoney"))
    by now apply truthy_not_nullish.
  reflexivity.
Qed.

(** The mapping computes the record of the specification on every node
    whose line items, when they are asked for, are well formed. *)
Lemma mapDraftOrderNode_spec (node : value) (includeItems : bool) :
  nullish node = false ->
  includeItems = false \/ items_ok node = true ->
  mapDraftOrderNode node includeItems = Ok (VObj (spec_record node includeItems)).
Proof.
  intros Hn Hok. unfold mapDraftOrderNode.
  rewrite !(get_opt_get node) by assumption. cbn [mbind result_bind].
  rewrite total_ok. cbn [mbind result_bind].
  unfold spec_record, spec_total.
  destruct includeItems; cbn [andb]; [|reflexivity].
  destruct Hok as [Hok|Hok]; [discriminate Hok|].
  destruct (truthy (opt_get node "lineItems")) eqn:T; [|reflexivity].
  unfold items_ok in Hok. rewrite T in Hok. cbn [negb orb] in Hok.
  rewrite (get_opt_get (opt_get node "lineItems")) by now apply truthy_not_nullish.
  cbn [mbind result_bind]. unfold spec_line_items.
  unfold js_or in *.
  destruct (opt_get (opt_get node "lineItems") "edges") as [| |[]|n|s|es|fs] eqn:E;
    cbn [truthy] in *; try discriminate Hok; try reflexivity.
  - destruct (negb (n =? 0)%Z); [discriminate Hok | reflexivity].
  - destruct (negb (String.eqb s "")); [discriminate Hok | reflexivity].
  - cbn [array_map]. rewrite (mapM_mapLineItem_ok es Hok). reflexivity.
Qed.

(** Conversely, the mapping throws on [null], on [undefined] and on line
    items that are asked for and malformed. *)
Lemma mapDraftOrderNode_throws (node : value) (includeItems : bool) :
  nullish node = true \/ (includeItems = true /\ items_ok node = false) ->
  exists e, mapDraftOrderNode node includeItems = Throw e.
Proof.
  intros [Hn | [-> Hok]].
  - destruct node; try discriminate Hn; eexists; reflexivity.
  - destruct (nullish node) eqn:Hn.
    { destruct node; try discriminate Hn; eexists; reflexivity. }
    unfold mapDraftOrderNode.
    rewrite !(get_opt_get node) by assumption. cbn [mbind result_bind].
    rewrite total_ok. cbn [mbind result_bind].
    unfold items_ok in Hok. apply orb_false_iff in Hok as [T Hok].
    apply negb_false_iff in T. rewrite T.
    rewrite (get_opt_get (opt_get node "lineItems")) by now apply truthy_not_nullish.
    cbn [mbind result_bind]. unfold js_or in *.
    destruct (opt_get (opt_get node "lineItems") "edges") as [| |[]|n|s|es|fs] eqn:E;
      cbn [truthy] in *; try discriminate Hok; try (eexists; reflexivity).
    + destruct (negb (n =? 0)%Z); [eexists; reflexivity | discriminate Hok].
    + destruct (negb (String.eqb s "")); [eexists; reflexivity | discriminate Hok].
    + cbn [array_map]. destruct (mapM_mapLineItem_throws es Hok) as [e ->]. eauto.
Qed.






(** ** Identifiers *)

Lemma split_after_last_slash (s : string) :
  match after_last_slash s with
  | Some t => exists p ps, split s "/" = p :: ps /\ last ps = Some t
  | None => split s "/" = [s]
  end.
Proof.
  induction s as [|c s IH]; [reflexivity|].
  cbn [split after_last_slash].
  destruct (after_last_slash s) as [t|].
  - destruct IH as (p & ps & -> & Hl).
    destruct (Ascii.eqb c "/").
    + exists EmptyString, (p :: ps). split; [reflexivity|].
      destruct ps; [discriminate Hl | exact Hl].
    + exists (String c p), ps. split; [reflexivity | exact Hl].
  - rewrite IH. destruct (Ascii.eqb c "/").
    + exists EmptyString, [s]. split; reflexivity.
    + reflexivity.
Qed.

Lemma pop_split (s : string) :
  pop (split s "/") = VStr (default s (after_last_slash s)).
Proof.
  pose proof (split_after_last_slash s) as H. unfold pop.
  destruct (after_last_slash s) as [t|].
  - destruct H as (p & ps & -> & Hl).
    destruct ps; [discriminate Hl|]. cbn [last] in *. now rewrite Hl.
  - now rewrite H.
Qed.

Lemma startsWith_gid_has_slash (s : string) :
  startsWith s "gid://" = true -> exists t, after_last_slash s = Some t.
Proof.
  unfold startsWith. intros H.
  do 6 (destruct s as [|? s]; cbn [String.prefix] in H; [discriminate H|];
        match type of H with
        | (if ?d then _ else false) = true => destruct d as [<-|]; [|discriminate H]
        end).
  cbn [after_last_slash].
  destruct (after_last_slash s) as [t|]; cbn; eauto.
Qed.

(** [gidToLegacyId] resolves exactly the truthy values whose string is a bare
    numeral or a [gid://] handle ending in a numeral. *)
Lemma gidToLegacyId_null (gid : value) :
  gidToLegacyId gid = VNull <->
  truthy gid = false \/ resolvable_id (toString gid) = false.
Proof.
  unfold gidToLegacyId, resolvable_id, ends_in_numeral.
  destruct (truthy gid); cbn [negb]; [|intuition].
  rewrite pop_split. unfold digits_test. cbn [toString].
  fold (numeral (toString gid)).
  destruct (startsWith (toString gid) "gid://") eqn:Hp; cbn [andb].
  - destruct (startsWith_gid_has_slash _ Hp) as [t ->]. cbn [default from_option id].
    fold (numeral t).
    destruct (numeral t) eqn:Ht.
    + rewrite orb_true_r. split; [discriminate | intros [?|?]; discriminate].
    + rewrite orb_false_r. destruct (numeral (toString gid)).
      * split; [discriminate | intros [?|?]; discriminate].
      * split; auto.
  - rewrite orb_false_r. destruct (numeral (toString gid)).
    + split; [discriminate | intros [?|?]; discriminate].
    + split; auto.
Qed.

Lemma numeral_truthy (s : string) : numeral s = true -> truthy (VStr s) = true.
Proof. unfold numeral. intros H. apply andb_true_iff in H as [H _]. exact H. Qed.

(** What it resolves to is a numeral, hence truthy. *)
Lemma gidToLegacyId_cases (gid : value) :
  gidToLegacyId gid = VNull \/
  exists s, gidToLegacyId gid = VStr s /\ numeral s = true.
Proof.
  unfold gidToLegacyId.
  destruct (truthy gid); cbn [negb]; [|now left].
  rewrite pop_split. unfold digits_test. cbn [toString].
  destruct (startsWith (toString gid) "gid://").
  - fold (numeral (default (toString gid) (after_last_slash (toString gid)))).
    destruct (numeral (default (toString gid) (after_last_slash (toString gid)))) eqn:E.
    + right. eauto.
    + fold (numeral (toString gid)).
      destruct (numeral (toString gid)) eqn:E'; [right; eauto | now left].
  - fold (numeral (toString gid)).
    destruct (numeral (toString gid)) eqn:E'; [right; eauto | now left].
Qed.

Lemma gidToLegacyId_numeral (s : string) :
  numeral s = true -> gidToLegacyId (VStr s) = VStr s.
Proof.
  intros H. unfold gidToLegacyId. rewrite (numeral_truthy s H). cbn [negb toString].
  assert (startsWith s "gid://" = false) as ->.
  { unfold startsWith. destruct s as [|c s]; [reflexivity|].
    unfold numeral in H. cbn in H. cbn [String.prefix].
    destruct (ascii_dec "g" c) as [<-|]; [discriminate H | reflexivity]. }
  unfold digits_test. cbn [toString]. fold (numeral s). now rewrite H.
Qed.

(** ** The route handlers *)

Section Handlers.

Variable bfo : value -> result bytes.
Variable env : environment.
Variable fetch : fetch_call -> result fetch_response.

(** [adminGraphQL] calls the upstream once when the Admin API is configured
    and not at all when it is not. *)
Lemma adminGraphQL_log (query : string) (variables : value) (log log' : list fetch_call)
    (r : result value) :
  adminGraphQL env fetch query variables log = (r, log') ->
  (configured env = false /\ log' = log /\ exists e, r = Throw e) \/
  (configured env = true /\ log' = log ++ [admin_call env query variables]).
Proof.
  unfold adminGraphQL, configured.
  destruct (truthy (env_value (SHOP_DOMAIN env)));
    destruct (truthy (env_value (ADMIN_API_VERSION env)));
    destruct (truthy (env_value (ADMIN_ACCESS_TOKEN env)));
    cbn [negb orb andb];
    try (unfold throw; intros [= <- <-]; left; eauto).
  intros H. right. split; [reflexivity|].
  unfold mbind, io_bind, do_fetch, lift, throw in H. fold (admin_call env query variables) in H.
  destruct (fetch (admin_call env query variables)) as [resp|e]; [|now injection H as _ <-].
  destruct (negb (resp_ok resp)); [now injection H as _ <-|].
  destruct (resp_json resp) as [json|e]; [|now injection H as _ <-].
  destruct (get json "errors") as [errors|e]; [|now injection H as _ <-].
  destruct (truthy errors); now injection H as _ <-.
Qed.

(** C8: a request whose signature verification fails is answered 401
    [invalid_signature] by both routes, and the upstream is not called. *)
Theorem invalid_signature_401 (req : request) :
  verifyProxy bfo env req = Ok false ->
  devis_list bfo env fetch req [] = (Ok (error_response 401 "invalid_signature"), []) /\
  devis_one bfo env fetch req [] = (Ok (error_response 401 "invalid_signature"), []).
Proof.
  intros H. run_handler.
  rewrite H. split; reflexivity.
Qed.


Lemma devis_list_missing (req : request) :
  verifyProxy bfo env req = Ok true ->
  truthy (query_param req "customer_id") = false ->
  devis_list bfo env fetch req [] = (Ok (error_response 400 "missing customer_id"), []).
Proof.
  intros H T. run_handler.
  rewrite H. cbn [negb]. rewrite T. reflexivity.
Qed.

Lemma devis_list_bad (req : request) :
  verifyProxy bfo env req = Ok true ->
  truthy (query_param req "customer_id") = true ->
  resolvable_id (toString (query_param req "customer_id")) = false ->
  devis_list bfo env fetch req [] = (Ok (error_response 400 "bad customer_id"), []).
Proof.
  intros H T R. run_handler.
  rewrite H. cbn [negb]. rewrite T. cbn [negb].
  assert (gidToLegacyId (query_param req "customer_id") = VNull) as ->
    by (apply gidToLegacyId_null; now right).
  reflexivity.
Qed.



Lemma numeral_not_gid (s : string) : numeral s = true -> startsWith s "gid://" = false.
Proof.
  intros H. unfold startsWith. destruct s as [|c s]; [reflexivity|].
  unfold numeral in H. cbn in H. cbn [String.prefix].
  destruct (ascii_dec "g" c) as [<-|]; [discriminate H | reflexivity].
Qed.

Lemma lookup_id_numeral (id : string) :
  numeral id = true -> lookup_id (VStr id) = VStr ("gid://shopify/DraftOrder/" +:+ id).
Proof.
  intros H. unfold lookup_id. rewrite (gidToLegacyId_numeral id H), (numeral_truthy id H).
  cbn [toString]. now rewrite (numeral_not_gid id H).
Qed.





(** The first two parts of C7 hold: a null node is answered 404 ... *)
Lemma devis_one_null_node (req : request) (resp : fetch_response) (json : value) :
  verifyProxy bfo env req = Ok true -> configured env = true ->
  fetch (admin_call env (one_query (if include_items req then one_lineItemsFrag else ""))
           (VObj [("id", lookup_id (VStr (params_id req)))])) = Ok resp ->
  resp_ok resp = true -> resp_json resp = Ok json ->
  nullish json = false -> truthy (opt_get json "errors") = false ->
  truthy (opt_get (opt_get json "data") "draftOrder") = false ->
  devis_one bfo env fetch req []
  = (Ok (error_response 404 "not_found"),
     [admin_call env (one_query (if include_items req then one_lineItemsFrag else ""))
        (VObj [("id", lookup_id (VStr (params_id req)))])]).
Proof.
  intros Hv Hc Hf Hok Hj Hn He Hd.
  run_handler. rewrite Hv. cbn [negb].
  unfold adminGraphQL. unfold configured in Hc.
  apply andb_true_iff in Hc as [Hc Hc3]. apply andb_true_iff in Hc as [Hc1 Hc2].
  rewrite Hc1, Hc2, Hc3. cbn [negb orb].
  unfold mbind, io_bind, do_fetch, lift.
  match goal with
  | |- context [fetch ?c] =>
      change c with (admin_call env (one_query (if include_items req then one_lineItemsFrag else ""))
                       (VObj [("id", lookup_id (VStr (params_id req)))]))
  end.
  rewrite Hf, Hok. cbn [negb]. rewrite Hj.
  rewrite !(get_opt_get json) by assumption. rewrite He, Hd. reflexivity.
Qed.

(** ... and so is an upstream answer of status 404. *)
Lemma devis_one_http_404 (req : request) (resp : fetch_response) :
  verifyProxy bfo env req = Ok true -> configured env = true ->
  fetch (admin_call env (one_query (if include_items req then one_lineItemsFrag else ""))
           (VObj [("id", lookup_id (VStr (params_id req)))])) = Ok resp ->
  resp_status resp = 404%N ->
  devis_one bfo env fetch req []
  = (Ok (error_response 404 "not_found"),
     [admin_call env (one_query (if include_items req then one_lineItemsFrag else ""))
        (VObj [("id", lookup_id (VStr (params_id req)))])]).
Proof.
  intros Hv Hc Hf Hst.
  run_handler. rewrite Hv. cbn [negb].
  unfold adminGraphQL. unfold configured in Hc.
  apply andb_true_iff in Hc as [Hc Hc3]. apply andb_true_iff in Hc as [Hc1 Hc2].
  rewrite Hc1, Hc2, Hc3. cbn [negb orb].
  unfold mbind, io_bind, do_fetch, lift, throw.
  match goal with
  | |- context [fetch ?c] =>
      change c with (admin_call env (one_query (if include_items req then one_lineItemsFrag else ""))
                       (VObj [("id", lookup_id (VStr (params_id req)))]))
  end.
  rewrite Hf. unfold resp_ok. rewrite Hst. cbn [N.leb N.compare Pos.compare Pos.compare_cont andb negb].
  reflexivity.
Qed.

End Handlers.

(** ** Witnesses, counterexamples and the examples of the specification *)



Lemma invalid_signature_401_witness :
  devis_list reject_objects sample_env upstream_down req_unsigned []
  = (Ok (error_response 401 "invalid_signature"), []) /\
  devis_one reject_objects sample_env upstream_down req_unsigned []
  = (Ok (error_response 401 "invalid_signature"), []).
Proof.
  apply (invalid_signature_401 reject_objects sample_env upstream_down req_unsigned).
  reflexivity.
Defined.


(** C7, third part: an upstream failure of status 500 whose body reads
    [HTTP 404] is answered 404 [not_found], where the claim has 500
    [server_error]; the same failure with another body is answered 500. *)
Theorem devis_one_http_500_answered_404 :
  verifyProxy reject_objects sample_env (req_one "987") = Ok true /\
  devis_one reject_objects sample_env (upstream_fails 500 "HTTP 404") (req_one "987") []
  = (Ok (error_response 404 "not_found"),
     [admin_call sample_env (one_query "") (VObj [("id", VStr "gid://shopify/DraftOrder/987")])]) /\
  devis_one reject_objects sample_env (upstream_fails 500 "Internal Server Error") (req_one "987") []
  = (Ok (error_response 500 "server_error"),
     [admin_call sample_env (one_query "") (VObj [("id", VStr "gid://shopify/DraftOrder/987")])]).
Proof. repeat split; vm_compute; reflexivity. Qed.

(** Published test vectors of the digest. *)
Example sha256_abc :
  hex_encode (SHA256.sha256 (utf8 "abc"))
  = "ba7816bf8f01cfea414140de5dae2223b00361a396177a9cb410ff61f20015ad".
Proof. vm_compute. reflexivity. Qed.

Example hmac_quick_brown_fox :
  hmacHex "key" "The quick brown fox jumps over the lazy dog"
  = "f7bc83f430538424b13298e6aa6fb143ef4d59a14946175997479dbc2d1a3cd8".
Proof. vm_compute. reflexivity. Qed.

(** The examples of the specification. *)
Example gidToLegacyId_examples :
  gidToLegacyId (VStr "gid://shop/DraftOrder/987") = VStr "987" /\
  gidToLegacyId (VStr "987") = VStr "987" /\
  gidToLegacyId (VStr "abc") = VNull /\
  gidToLegacyId VNull = VNull.
Proof. repeat split; reflexivity. Qed.

Example legacy_message_example :
  legacy_message (delete "signature" (query req_legacy)) = "a=1b=2".
Proof. vm_compute. reflexivity. Qed.

Example verifyProxy_examples :
  verifyProxy reject_objects sample_env req_signed = Ok true /\
  verifyProxy reject_objects sample_env req_signed_apps = Ok true /\
  verifyProxy reject_objects sample_env req_legacy = Ok true /\
  verifyProxy reject_objects sample_env req_unsigned = Ok false /\
  headerSig req_two_headers = VStr "bm90IGEgc2lnbmF0dXJl" /\
  verifyProxy reject_objects sample_env req_two_headers = Ok false.
Proof. repeat split; vm_compute; reflexivity. Qed.

Example devis_one_null_node_example :
  devis_one reject_objects sample_env upstream_null_node (req_one "987") []
  = (Ok (error_response 404 "not_found"),
     [admin_call sample_env (one_query "") (VObj [("id", VStr "gid://shopify/DraftOrder/987")])]).
Proof. vm_compute. reflexivity. Qed.

(** * Further properties *)

(** ** The comparison and the digests *)

(** X1: on two strings the constant-time comparison is string equality:
    true exactly when they are equal, false exactly when they differ, and
    the same in both orders. *)
Theorem safeEqual_is_string_equality (bfo : value -> result bytes) (a b : string) :
  (safeEqual bfo (VStr a) (VStr b) = Ok true <-> a = b) /\
  (safeEqual bfo (VStr a) (VStr b) = Ok false <-> a <> b) /\
  safeEqual bfo (VStr a) (VStr b) = safeEqual bfo (VStr b) (VStr a).
Proof.
  rewrite !safeEqual_strings. split; [|split].
  - split.
    + intros [= H]. now apply bool_decide_eq_true in H.
    + intros ->. f_equal. now apply bool_decide_eq_true.
  - split.
    + intros [= H]. now apply bool_decide_eq_false in H.
    + intros H. f_equal. now apply bool_decide_eq_false.
  - f_equal. apply bool_decide_ext. split; congruence.
Qed.

Lemma hex_digit_lower (m : nat) :
  (m < 16)%nat -> is_lower_hex (ascii_of_N (hex_digit (N.of_nat m))) = true.
Proof.
  intros H. do 16 (destruct m as [|m]; [reflexivity|]). lia.
Qed.

Lemma hex_digit_mod_lower (x : N) :
  is_lower_hex (ascii_of_N (hex_digit (x mod 16))) = true.
Proof.
  rewrite <- (N2Nat.id (x mod 16)). apply hex_digit_lower.
  pose proof (N.mod_upper_bound x 16). lia.
Qed.

Lemma hex_encode_lower (bs : bytes) : all_lower_hex (hex_encode bs) = true.
Proof.
  unfold hex_encode, string_of_bytes.
  induction bs as [|b bs IH]; [reflexivity|].
  cbn [flat_map app map string_of_list_ascii all_lower_hex].
  now rewrite !hex_digit_mod_lower, IH.
Qed.

Lemma base64_bytes_pad_32 (bs : bytes) :
  length bs = 32%nat -> nth 43 (base64_bytes bs) 0%N = 61%N.
Proof.
  intros H.
  do 32 (destruct bs as [|? bs]; [discriminate H|]).
  destruct bs; [reflexivity | discriminate H].
Qed.

Lemma string_of_bytes_get (n : nat) (bs : bytes) :
  (n < length bs)%nat ->
  String.get n (string_of_bytes bs) = Some (ascii_of_N (nth n bs 0%N)).
Proof.
  unfold string_of_bytes. revert n.
  induction bs as [|b bs IH]; intros n H; [simpl in H; lia|].
  destruct n as [|n]; [reflexivity|]. simpl in H |- *. apply IH. lia.
Qed.

(** X2: whatever the secret and the message, the hex digest is 64 lowercase
    hexadecimal digits, and the base64 digest is 44 characters, the last of
    them the padding [=]. *)
Theorem hmac_digest_shape (secret raw : string) :
  String.length (hmacHex secret raw) = 64%nat /\
  all_lower_hex (hmacHex secret raw) = true /\
  String.length (hmacBase64 secret raw) = 44%nat /\
  String.get 43 (hmacBase64 secret raw) = Some "="%char.
Proof.
  split; [apply hmacHex_length|]. split; [apply hex_encode_lower|].
  split; [apply hmacBase64_length|].
  unfold hmacBase64, base64_encode.
  pose proof (hmac_length (utf8 secret) (utf8 raw)) as L.
  rewrite string_of_bytes_get.
  - now rewrite (base64_bytes_pad_32 _ L).
  - rewrite (base64_bytes_length_32 _ L). lia.
Qed.

Section MoreVerification.

Variable bfo : value -> result bytes.
Variable env : environment.

(** X3: a request without signature header that is accepted on a legacy
    [signature] given as one string carries 64 lowercase hexadecimal digits
    there; an uppercase or shortened digest is never accepted. *)
Theorem verifyProxy_legacy_signature_shape (req : request) (s : string) :
  headers req !! "x-shopify-proxy-signature" = None ->
  headers req !! "x-shopify-hmac-sha256" = None ->
  query req !! "signature" = Some (VStr s) ->
  verifyProxy bfo env req = Ok true ->
  String.length s = 64%nat /\ all_lower_hex s = true.
Proof.
  intros H1 H2 Hq Hv.
  apply verifyProxy_true_iff in Hv as (secret & Hs & Hne & [Hm|Hm]).
  - destruct Hm as (hs & Hh & _). unfold headerSig, js_or, header in Hh.
    rewrite H1, H2 in Hh. discriminate Hh.
  - unfold legacy_matches, query_param in Hm. rewrite Hq in Hm.
    apply safeEqual_strings_true in Hm as ->.
    split; [apply hmacHex_length | apply hex_encode_lower].
Qed.

(** X4: when [x-shopify-proxy-signature] is present and not empty, the
    verdict does not depend on [x-shopify-hmac-sha256]: setting that header
    to any value changes nothing. *)
Theorem verifyProxy_first_header_wins (req : request) (h1 v : string) :
  headers req !! "x-shopify-proxy-signature" = Some h1 -> h1 <> "" ->
  verifyProxy bfo env (with_header "x-shopify-hmac-sha256" v req)
  = verifyProxy bfo env req.
Proof.
  intros H Hne.
  assert (headerSig (with_header "x-shopify-hmac-sha256" v req) = headerSig req) as E.
  { rewrite (headerSig_first req h1 H Hne). apply headerSig_first; [|exact Hne].
    unfold with_header. cbn [headers]. now rewrite lookup_insert_ne. }
  unfold verifyProxy. rewrite E. reflexivity.
Qed.


End MoreVerification.

(** ** The legacy message *)


Lemma append_empty_r (a : string) : a +:+ "" = a.
Proof.
  induction a as [|x a IH]; [reflexivity|].
  change (String x (a +:+ "") = String x a). now rewrite IH.
Qed.






Section LegacyCollision.

Variable bfo : value -> result bytes.
Variable env : environment.



End LegacyCollision.

(** ** Identifiers *)

Lemma prefix_append (p a b : string) :
  String.prefix p a = true -> String.prefix p (a +:+ b) = true.
Proof.
  revert a. induction p as [|c p IH]; intros a H.
  - destruct a as [|d a].
    + change ("" +:+ b) with b. destruct b; reflexivity.
    + reflexivity.
  - destruct a as [|d a]; [discriminate H|].
    change (String d a +:+ b) with (String d (a +:+ b)).
    cbn [String.prefix] in H |- *.
    destruct (ascii_dec c d); [now apply IH | discriminate H].
Qed.

Lemma all_digits_no_slash (n : string) : all_digits n = true -> after_last_slash n = None.
Proof.
  induction n as [|c n IH]; [reflexivity|].
  cbn [all_digits after_last_slash]. intros H. apply andb_true_iff in H as [Hc Hn].
  rewrite (IH Hn).
  destruct (Ascii.eqb_spec c "/") as [->|_]; [discriminate Hc | reflexivity].
Qed.

Lemma after_last_slash_append (a n : string) :
  after_last_slash n = None -> after_last_slash (a +:+ "/" +:+ n) = Some n.
Proof.
  intros Hn. induction a as [|c a IH].
  - change ("" +:+ "/" +:+ n) with (String "/" n).
    cbn [after_last_slash]. now rewrite Hn.
  - change (String c a +:+ "/" +:+ n) with (String c (a +:+ "/" +:+ n)).
    cbn [after_last_slash]. now rewrite IH.
Qed.

Lemma gidToLegacyId_handle (base n : string) :
  startsWith base "gid://" = true -> numeral n = true ->
  gidToLegacyId (VStr (base +:+ "/" +:+ n)) = VStr n.
Proof.
  intros Hb Hn. unfold gidToLegacyId.
  assert (startsWith (base +:+ "/" +:+ n) "gid://" = true) as Hp
    by now apply prefix_append.
  assert (truthy (VStr (base +:+ "/" +:+ n)) = true) as ->.
  { apply truthy_VStr. intros E. rewrite E in Hp. discriminate Hp. }
  cbn [negb toString]. rewrite Hp, pop_split.
  rewrite after_last_slash_append.
  - cbn [default from_option id]. unfold digits_test. cbn [toString].
    fold (numeral n). now rewrite Hn.
  - apply all_digits_no_slash. unfold numeral in Hn.
    now apply andb_true_iff in Hn as [_ Hn].
Qed.


(** X8: the numeral is read back from a handle: from any string that starts
    with [gid://] and ends in [/] and a numeral [gidToLegacyId] returns that
    numeral, and so it does from the handle the detail route builds of a
    bare numeral. *)
Theorem gidToLegacyId_round_trip (base n : string) :
  numeral n = true ->
  (startsWith base "gid://" = true ->
   gidToLegacyId (VStr (base +:+ "/" +:+ n)) = VStr n) /\
  gidToLegacyId (lookup_id (VStr n)) = VStr n.
Proof.
  intros Hn. split.
  - intros Hb. now apply gidToLegacyId_handle.
  - rewrite (lookup_id_numeral n Hn).
    change ("gid://shopify/DraftOrder/" +:+ n) with ("gid://shopify/DraftOrder" +:+ "/" +:+ n).
    now apply gidToLegacyId_handle.
Qed.


(** ** The mapping, further *)


(** X11: a record has the seven fields [id], [legacyResourceId], [name],
    [createdAt], [status], [invoiceUrl], [total], in this order, followed by
    [lineItems] exactly when the flag is set and the node has line items; no
    other field of the node is ever copied. *)
Theorem mapDraftOrderNode_fields (node : value) (includeItems : bool) (record : list (string * value)) :
  mapDraftOrderNode node includeItems = Ok (VObj record) ->
  map fst record
  = ["id"; "legacyResourceId"; "name"; "createdAt"; "status"; "invoiceUrl"; "total"]
    ++ (if includeItems && truthy (opt_get node "lineItems") then ["lineItems"] else []).
Proof.
  intros Hr.
  assert (nullish node = false /\ (includeItems = false \/ items_ok node = true)) as [Hn Hok].
  { destruct (nullish node) eqn:Hn.
    { destruct (mapDraftOrderNode_throws node includeItems) as [e He]; [now left|].
      rewrite He in Hr. discriminate Hr. }
    split; [reflexivity|].
    destruct includeItems; [|now left]. right.
    destruct (items_ok node) eqn:Hok; [reflexivity|].
    destruct (mapDraftOrderNode_throws node true) as [e He]; [now right|].
    rewrite He in Hr. discriminate Hr. }
  rewrite (mapDraftOrderNode_spec node includeItems Hn Hok) in Hr.
  injection Hr as <-. unfold spec_record.
  destruct (includeItems && truthy (opt_get node "lineItems")); reflexivity.
Qed.


(** ** The upstream call *)

Section Upstream.

Variable env : environment.
Variable fetch : fetch_call -> result fetch_response.

(** [adminGraphQL] past its check of the configuration. *)
Lemma adminGraphQL_configured (query : string) (variables : value) (log : list fetch_call) :
  configured env = true ->
  adminGraphQL env fetch query variables log
  = match fetch (admin_call env query variables) with
    | Ok resp =>
        if negb (resp_ok resp) then
          (Throw (Error ("[AdminAPI] HTTP " +:+ pretty (resp_status resp) +:+ ": "
                         +:+ match resp_text resp with Ok t => t | Throw _ => "" end)),
           log ++ [admin_call env query variables])
        else
          match resp_json resp with
          | Ok json =>
              match get json "errors" with
              | Ok errors =>
                  if truthy errors
                  then (Throw (Error ("[AdminAPI] GraphQL errors: " +:+ JSON_stringify errors)),
                        log ++ [admin_call env query variables])
                  else (get json "data", log ++ [admin_call env query variables])
              | Throw e => (Throw e, log ++ [admin_call env query variables])
              end
          | Throw e => (Throw e, log ++ [admin_call env query variables])
          end
    | Throw e => (Throw e, log ++ [admin_call env query variables])
    end.
Proof.
  intros Hc. unfold adminGraphQL. unfold configured in Hc.
  apply andb_true_iff in Hc as [Hc Hc3]. apply andb_true_iff in Hc as [Hc1 Hc2].
  rewrite Hc1, Hc2, Hc3. cbn [negb orb].
  unfold mbind, io_bind, do_fetch, lift, throw.
  fold (admin_call env query variables).
  destruct (fetch (admin_call env query variables)) as [resp|e]; [|reflexivity].
  destruct (negb (resp_ok resp)); [reflexivity|].
  destruct (resp_json resp) as [json|e]; [|reflexivity].
  destruct (get json "errors") as [errors|e]; [|reflexivity].
  destruct (truthy errors); reflexivity.
Qed.




(** X16: [adminGraphQL] never calls the upstream twice: it adds to the log
    the one call to the configured endpoint, or nothing when the
    configuration is incomplete. *)
Theorem adminGraphQL_single_call (query : string) (variables : value)
    (log : list fetch_call) :
  exists r,
    adminGraphQL env fetch query variables log
    = (r, log ++ (if configured env then [admin_call env query variables] else [])).
Proof.
  destruct (adminGraphQL env fetch query variables log) as [r log'] eqn:A.
  exists r. apply adminGraphQL_log in A as [(Hc & -> & _) | (Hc & ->)]; rewrite Hc.
  - now rewrite app_nil_r.
  - reflexivity.
Qed.


End Upstream.

(** ** The routes, further *)

Lemma mapLineItem_message (edge : value) (e : exn) :
  mapLineItem edge = Throw e -> includes (message e) "HTTP 404" = false.
Proof.
  unfold mapLineItem. destruct edge; cbn [get mbind result_bind];
    try (intros [= <-]; reflexivity).
  destruct (assoc "node" fields); cbn [get mbind result_bind];
    try (intros [= <-]; reflexivity); discriminate.
Qed.

Lemma mapM_mapLineItem_message (es : list value) (e : exn) :
  mapM mapLineItem es = Throw e -> includes (message e) "HTTP 404" = false.
Proof.
  induction es as [|x es IH]; cbn [mapM]; [discriminate|].
  destruct (mapLineItem x) as [y|e'] eqn:Hx.
  - destruct (mapM mapLineItem es) as [ys|e'']; [discriminate|].
    intros [= <-]. now apply IH.
  - intros [= <-]. now apply (mapLineItem_message x).
Qed.

(** The TypeErrors of the mapping on a node that is there never read
    [HTTP 404]. *)
Lemma mapDraftOrderNode_message (node : value) (includeItems : bool) (e : exn) :
  truthy node = true ->
  mapDraftOrderNode node includeItems = Throw e ->
  includes (message e) "HTTP 404" = false.
Proof.
  intros Ht. assert (nullish node = false) as Hn by now apply truthy_not_nullish.
  unfold mapDraftOrderNode.
  rewrite !(get_opt_get node) by assumption. cbn [mbind result_bind].
  rewrite total_ok. cbn [mbind result_bind].
  destruct includeItems; [|discriminate].
  destruct (truthy (opt_get node "lineItems")) eqn:T; [|discriminate].
  rewrite (get_opt_get (opt_get node "lineItems")) by now apply truthy_not_nullish.
  cbn [mbind result_bind]. unfold js_or.
  destruct (opt_get (opt_get node "lineItems") "edges") as [| |[]|n|s|es|fs];
    cbn [truthy array_map mapM mbind result_bind];
    try discriminate; try (intros [= <-]; reflexivity).
  - destruct (negb (n =? 0)%Z); cbn [array_map mapM]; [intros [= <-]; reflexivity | discriminate].
  - destruct (negb (String.eqb s "")); cbn [array_map mapM];
      [intros [= <-]; reflexivity | discriminate].
  - destruct (mapM mapLineItem es) as [ys|e'] eqn:Hm; [discriminate|].
    intros [= <-]. now apply (mapM_mapLineItem_message es).
Qed.


Section MoreHandlers.

Variable bfo : value -> result bytes.
Variable env : environment.
Variable fetch : fetch_call -> result fetch_response.

(** The list route past the validation of the identifier. *)
Lemma devis_list_upstream (req : request) :
  verifyProxy bfo env req = Ok true ->
  truthy (query_param req "customer_id") = true ->
  resolvable_id (toString (query_param req "customer_id")) = true ->
  devis_list bfo env fetch req []
  = match adminGraphQL env fetch (call_query (list_call env req))
            (call_variables (list_call env req)) [] with
    | (Ok data, log) =>
        match array_map
                (fun edge => node ← get edge "node"; mapDraftOrderNode node (include_items req))
                (js_or (opt_get (opt_get data "draftOrders") "edges") (VArr [])) with
        | Ok quotes =>
            (Ok {| res_status := 200; res_headers := no_cache;
                   res_body :=
                     VObj [("quotes", quotes);
                           ("pageInfo",
                            js_or (opt_get (opt_get data "draftOrders") "pageInfo") (VObj []))] |},
             log)
        | Throw _ => (Ok (error_response 500 "server_error"), log)
        end
    | (Throw _, log) => (Ok (error_response 500 "server_error"), log)
    end.
Proof.
  intros H T R. run_handler. rewrite H. cbn [negb]. rewrite T. cbn [negb].
  destruct (gidToLegacyId_cases (query_param req "customer_id")) as [E | (s & E & Hs)].
  { apply gidToLegacyId_null in E as [E|E]; congruence. }
  unfold list_call, admin_call. cbn [call_query call_variables].
  rewrite E, (numeral_truthy s Hs). cbn [negb].
  match goal with
  | |- context [adminGraphQL env fetch ?q ?v []] =>
      destruct (adminGraphQL env fetch q v []) as [[data|e] log]
  end; [|reflexivity].
  match goal with
  | |- context [array_map ?f ?v] => destruct (array_map f v) as [quotes|e]
  end; reflexivity.
Qed.

(** X18: the list route answers 200 with the two no-cache headers, or an
    [error] body under 400, 401 or 500 and no header of its own; it never
    answers 404, and it calls the upstream at most once. *)
Theorem devis_list_answers (req : request) :
  exists resp calls,
    devis_list bfo env fetch req [] = (Ok resp, calls) /\
    (res_status resp = 200%N /\ res_headers resp = no_cache \/
     (res_status resp = 400%N \/ res_status resp = 401%N \/ res_status resp = 500%N) /\
     res_headers resp = [] /\
     exists err, res_body resp = VObj [("error", VStr err)]) /\
    (calls = [] \/ calls = [list_call env req]) /\
    (res_status resp = 400%N \/ res_status resp = 401%N -> calls = []).
Proof.
  destruct (verifyProxy_returns bfo env req) as [[|] Hv].
  - destruct (truthy (query_param req "customer_id")) eqn:T.
    + destruct (resolvable_id (toString (query_param req "customer_id"))) eqn:R.
      * rewrite (devis_list_upstream req Hv T R).
        destruct (adminGraphQL env fetch (call_query (list_call env req))
                    (call_variables (list_call env req)) []) as [[data|e] log] eqn:A;
          apply adminGraphQL_log in A as [(_ & -> & _) | (_ & ->)];
          try match goal with
              | |- context [array_map ?f ?v] => destruct (array_map f v) as [quotes|e']
              end;
          eexists _, _; (split; [reflexivity|]); cbn;
          (split; [eauto 10 | split; [auto | intros [?|?]; discriminate]]).
      * rewrite (devis_list_bad bfo env fetch req Hv T R).
        eexists _, _. split; [reflexivity|]. cbn. eauto 10.
    + rewrite (devis_list_missing bfo env fetch req Hv T).
      eexists _, _. split; [reflexivity|]. cbn. eauto 10.
  - run_handler. rewrite Hv. cbn [negb].
    eexists _, _. split; [reflexivity|]. cbn. eauto 10.
Qed.

(** X19: whatever the request, the search filter the list route sends
    upstream is [customer_id:] followed by digits only, next to the page size
    10 and the cursor as given ([null] when absent or empty). *)
Theorem devis_list_filter (req : request) (resp : response) (calls : list fetch_call)
    (c : fetch_call) :
  devis_list bfo env fetch req [] = (Ok resp, calls) -> c ∈ calls ->
  exists n,
    numeral n = true /\
    call_variables c
    = VObj [("first", VNum 10); ("after", js_or (query_param req "after") VNull);
            ("q", VStr ("customer_id:" +:+ n))].
Proof.
  intros Hr Hc.
  destruct (verifyProxy_returns bfo env req) as [[|] Hv].
  - destruct (truthy (query_param req "customer_id")) eqn:T.
    + destruct (resolvable_id (toString (query_param req "customer_id"))) eqn:R.
      * destruct (gidToLegacyId_cases (query_param req "customer_id")) as [E | (n & E & Hn)].
        { apply gidToLegacyId_null in E as [E|E]; congruence. }
        exists n. split; [exact Hn|].
        rewrite (devis_list_upstream req Hv T R) in Hr.
        assert (calls = [] \/ calls = [list_call env req]) as [-> | ->].
        { destruct (adminGraphQL env fetch (call_query (list_call env req))
                      (call_variables (list_call env req)) []) as [[data|e] log] eqn:A;
            apply adminGraphQL_log in A as [(_ & -> & _) | (_ & ->)];
            try match type of Hr with
                | context [array_map ?f ?v] => destruct (array_map f v) as [quotes|e']
                end;
            injection Hr as _ <-; auto. }
        -- now apply elem_of_nil in Hc.
        -- apply list_elem_of_singleton in Hc as ->.
           unfold list_call, admin_call. cbn [call_variables]. now rewrite E.
      * rewrite (devis_list_bad bfo env fetch req Hv T R) in Hr.
        injection Hr as _ <-. now apply elem_of_nil in Hc.
    + rewrite (devis_list_missing bfo env fetch req Hv T) in Hr.
      injection Hr as _ <-. now apply elem_of_nil in Hc.
  - revert Hr. run_handler. rewrite Hv. cbn [negb].
    intros [= _ <-]. now apply elem_of_nil in Hc.
Qed.

(** [adminGraphQL] throws when the upstream never answers 2xx. *)
Lemma adminGraphQL_failing_upstream (query : string) (variables : value) :
  (forall c, match fetch c with Ok r => resp_ok r = false | Throw _ => True end) ->
  exists e log, adminGraphQL env fetch query variables [] = (Throw e, log).
Proof.
  intros Hf. destruct (configured env) eqn:Hc.
  - rewrite (adminGraphQL_configured env fetch _ _ _ Hc).
    specialize (Hf (admin_call env query variables)).
    destruct (fetch (admin_call env query variables)) as [r|e]; [|eauto].
    rewrite Hf. cbn [negb]. eauto.
  - destruct (adminGraphQL env fetch query variables []) as [r log] eqn:A.
    apply adminGraphQL_log in A as [(_ & -> & e & ->) | (Hc' & _)]; [eauto | congruence].
Qed.

(** X20: on the list route every upstream failure is answered 500
    [server_error], a 404 of the upstream like any other status. *)
Theorem devis_list_upstream_failure (req : request) :
  verifyProxy bfo env req = Ok true ->
  truthy (query_param req "customer_id") = true ->
  resolvable_id (toString (query_param req "customer_id")) = true ->
  (forall c, match fetch c with Ok r => resp_ok r = false | Throw _ => True end) ->
  exists calls,
    devis_list bfo env fetch req [] = (Ok (error_response 500 "server_error"), calls).
Proof.
  intros Hv T R Hf. rewrite (devis_list_upstream req Hv T R).
  destruct (adminGraphQL_failing_upstream (call_query (list_call env req))
              (call_variables (list_call env req)) Hf) as (e & log & ->).
  eauto.
Qed.





End MoreHandlers.

Section DetailRoute.

Variable bfo : value -> result bytes.
Variable env : environment.
Variable fetch : fetch_call -> result fetch_response.

(** The detail route past the verification. *)
Lemma devis_one_upstream (req : request) :
  verifyProxy bfo env req = Ok true ->
  devis_one bfo env fetch req []
  = match adminGraphQL env fetch (call_query (one_call env req))
            (call_variables (one_call env req)) [] with
    | (Ok data, log) =>
        if negb (truthy (opt_get data "draftOrder"))
        then (Ok (error_response 404 "not_found"), log)
        else
          match mapDraftOrderNode (opt_get data "draftOrder") (include_items req) with
          | Ok quote =>
              (Ok {| res_status := 200; res_headers := no_cache;
                     res_body := VObj [("quote", quote)] |}, log)
          | Throw e =>
              (Ok (if includes (message e) "HTTP 404"
                   then error_response 404 "not_found"
                   else error_response 500 "server_error"), log)
          end
    | (Throw e, log) =>
        (Ok (if includes (message e) "HTTP 404"
             then error_response 404 "not_found"
             else error_response 500 "server_error"), log)
    end.
Proof.
  intros Hv. run_handler. rewrite Hv. cbn [negb].
  unfold one_call, admin_call. cbn [call_query call_variables toString].
  match goal with
  | |- context [adminGraphQL env fetch ?q ?v []] =>
      destruct (adminGraphQL env fetch q v []) as [[data|e] log]
  end.
  - destruct (negb (truthy (opt_get data "draftOrder"))); [reflexivity|].
    destruct (mapDraftOrderNode (opt_get data "draftOrder") (include_items req)) as [quote|e];
      [reflexivity|].
    destruct (includes (message e) "HTTP 404"); reflexivity.
  - destruct (includes (message e) "HTTP 404"); reflexivity.
Qed.



(** X26: a draft order that is there but whose line items cannot be read is
    answered 500 [server_error] by the detail route, never 404. *)
Theorem devis_one_malformed_node (req : request) (data : value) (log : list fetch_call) :
  verifyProxy bfo env req = Ok true ->
  adminGraphQL env fetch (call_query (one_call env req))
    (call_variables (one_call env req)) [] = (Ok data, log) ->
  truthy (opt_get data "draftOrder") = true ->
  include_items req = true ->
  items_ok (opt_get data "draftOrder") = false ->
  devis_one bfo env fetch req [] = (Ok (error_response 500 "server_error"), log).
Proof.
  intros Hv Ha Hd Hi Hok. rewrite (devis_one_upstream req Hv), Ha, Hd. cbn [negb].
  rewrite Hi.
  destruct (mapDraftOrderNode_throws (opt_get data "draftOrder") true) as [e He];
    [now right|].
  rewrite He. now rewrite (mapDraftOrderNode_message _ _ e Hd He).
Qed.

End DetailRoute.

(** ** The first version of the route *)

Section FirstRoute.

Variable bfo : value -> result bytes.
Variable env : environment.
Variable fetch : fetch_call -> result fetch_response.

(** The first version's route on a string identifier. *)
Lemma first_version_upstream (req : request) (s : string) :
  verifyProxy bfo env req = Ok true ->
  query req !! "customer_id" = Some (VStr s) -> s <> "" ->
  FirstVersion.devis bfo env fetch req []
  = let c := first_call env req (default s (after_last_slash s)) in
    match fetch c with
    | Ok resp =>
        if negb (resp_ok resp) then
          match resp_text resp with
          | Ok _ => (Ok (error_response (resp_status resp) "admin_api_error"), [c])
          | Throw _ => (Ok (error_response 500 "server_error"), [c])
          end
        else
          match resp_json resp with
          | Ok json =>
              match get json "errors" with
              | Ok errors =>
                  if truthy errors then (Ok (error_response 500 "graphql_errors"), [c])
                  else
                    match array_map
                            (fun edge => node ← get edge "node"; FirstVersion.mapNode node)
                            (js_or (opt_get (opt_get (opt_get json "data") "draftOrders") "edges")
                               (VArr [])) with
                    | Ok quotes =>
                        (Ok {| res_status := 200; res_headers := [];
                               res_body :=
                                 VObj [("quotes", quotes);
                                       ("pageInfo",
                                        js_or (opt_get (opt_get (opt_get json "data")
                                                          "draftOrders") "pageInfo")
                                          (VObj []))] |}, [c])
                    | Throw _ => (Ok (error_response 500 "server_error"), [c])
                    end
              | Throw _ => (Ok (error_response 500 "server_error"), [c])
              end
          | Throw _ => (Ok (error_response 500 "server_error"), [c])
          end
    | Throw _ => (Ok (error_response 500 "server_error"), [c])
    end.
Proof.
  intros Hv Hq Hne. cbv zeta.
  unfold FirstVersion.devis, io_catch, mbind, io_bind, lift, do_fetch.
  rewrite Hv. cbn [negb]. unfold query_param at 1 2. rewrite Hq.
  apply truthy_VStr in Hne. rewrite Hne. cbn [negb FirstVersion.split_pop].
  rewrite pop_split. cbn [toString app].
  fold (first_call env req (default s (after_last_slash s))).
  destruct (fetch (first_call env req (default s (after_last_slash s)))) as [resp|e];
    [|reflexivity].
  destruct (negb (resp_ok resp)).
  - destruct (resp_text resp); reflexivity.
  - destruct (resp_json resp) as [json|e]; [|reflexivity].
    destruct (get json "errors") as [errors|e]; [|reflexivity].
    destruct (truthy errors); [reflexivity|].
    match goal with
    | |- context [array_map ?f ?v] => destruct (array_map f v)
    end; reflexivity.
Qed.

(** X27: the first version does not validate the identifier: any non-empty
    string, numeral or not, is sent upstream in one call, cut to what
    follows its last [/]. *)
Theorem first_version_sends_any_identifier (req : request) (s : string) :
  verifyProxy bfo env req = Ok true ->
  query req !! "customer_id" = Some (VStr s) -> s <> "" ->
  exists resp,
    FirstVersion.devis bfo env fetch req []
    = (Ok resp, [first_call env req (default s (after_last_slash s))]).
Proof.
  intros Hv Hq Hne. rewrite (first_version_upstream req s Hv Hq Hne). cbv zeta.
  destruct (fetch (first_call env req (default s (after_last_slash s)))) as [resp|e];
    [|eauto].
  destruct (negb (resp_ok resp)).
  - destruct (resp_text resp); eauto.
  - destruct (resp_json resp) as [json|e]; [|eauto].
    destruct (get json "errors") as [errors|e]; [|eauto].
    destruct (truthy errors); [eauto|].
    match goal with
    | |- context [array_map ?f ?v] => destruct (array_map f v)
    end; eauto.
Qed.

(** X28: the first version hands the status of a failed upstream answer on
    to its caller, with the error [admin_api_error]; when the body of that
    answer cannot be read it answers 500 [server_error]. *)
Theorem first_version_status_passthrough (req : request) (s : string)
    (resp : fetch_response) :
  verifyProxy bfo env req = Ok true ->
  query req !! "customer_id" = Some (VStr s) -> s <> "" ->
  fetch (first_call env req (default s (after_last_slash s))) = Ok resp ->
  resp_ok resp = false ->
  ((exists txt, resp_text resp = Ok txt) ->
   FirstVersion.devis bfo env fetch req []
   = (Ok (error_response (resp_status resp) "admin_api_error"),
      [first_call env req (default s (after_last_slash s))])) /\
  ((exists e, resp_text resp = Throw e) ->
   FirstVersion.devis bfo env fetch req []
   = (Ok (error_response 500 "server_error"),
      [first_call env req (default s (after_last_slash s))])).
Proof.
  intros Hv Hq Hne Hf Hok. rewrite (first_version_upstream req s Hv Hq Hne). cbv zeta.
  rewrite Hf, Hok. cbn [negb].
  split; intros [x ->]; reflexivity.
Qed.

(** X29: in the first version an identifier that is no string, as a
    repeated parameter is, ends in 500 [server_error] before any upstream
    call. *)
Theorem first_version_non_string_identifier (req : request) :
  verifyProxy bfo env req = Ok true ->
  truthy (query_param req "customer_id") = true ->
  (forall s, query_param req "customer_id" <> VStr s) ->
  FirstVersion.devis bfo env fetch req [] = (Ok (error_response 500 "server_error"), []).
Proof.
  intros Hv T Hns.
  unfold FirstVersion.devis, io_catch, mbind, io_bind, lift, do_fetch.
  rewrite Hv. cbn [negb]. rewrite T. cbn [negb].
  destruct (query_param req "customer_id") as [| |b|n|s|xs|fs];
    try discriminate T; try reflexivity.
  exfalso. now apply (Hns s).
Qed.

End FirstRoute.

(** ** Witnesses of the further properties *)

Lemma verifyProxy_legacy_signature_shape_witness :
  String.length "77110e91a4fe9a0b41b41b9c13ed6cf9228970ac260c793751bd99044eae69b9" = 64%nat /\
  all_lower_hex "77110e91a4fe9a0b41b41b9c13ed6cf9228970ac260c793751bd99044eae69b9" = true.
Proof.
  apply (verifyProxy_legacy_signature_shape reject_objects sample_env req_legacy);
    [reflexivity | reflexivity | reflexivity | vm_compute; reflexivity].
Defined.

Lemma verifyProxy_first_header_wins_witness :
  verifyProxy reject_objects sample_env
    (with_header "x-shopify-hmac-sha256" "bm90IGEgc2lnbmF0dXJl" req_signed)
  = verifyProxy reject_objects sample_env req_signed.
Proof.
  apply (verifyProxy_first_header_wins reject_objects sample_env req_signed
           "asw/q9qubKqRshs0X44Z0coiaYzEndviXVVVsTB6NcQ=");
    [reflexivity | discriminate].
Defined.



Lemma gidToLegacyId_round_trip_witness :
  gidToLegacyId (VStr "gid://shopify/Customer/42") = VStr "42" /\
  gidToLegacyId (lookup_id (VStr "42")) = VStr "42".
Proof.
  split.
  - apply (proj1 (gidToLegacyId_round_trip "gid://shopify/Customer" "42" eq_refl)).
    reflexivity.
  - apply (proj2 (gidToLegacyId_round_trip "gid://shopify/Customer" "42" eq_refl)).
Defined.

Lemma mapDraftOrderNode_fields_witness :
  map fst (spec_record node_priced true)
  = ["id"; "legacyResourceId"; "name"; "createdAt"; "status"; "invoiceUrl"; "total";
     "lineItems"].
Proof.
  apply (mapDraftOrderNode_fields node_priced true (spec_record node_priced true)).
  reflexivity.
Defined.





Lemma devis_list_filter_witness :
  exists n,
    numeral n = true /\
    call_variables (list_call sample_env (req_list "gid://shopify/Customer/123"))
    = VObj [("first", VNum 10); ("after", VNull); ("q", VStr ("customer_id:" +:+ n))].
Proof.
  apply (devis_list_filter reject_objects sample_env upstream_down
           (req_list "gid://shopify/Customer/123")
           (error_response 500 "server_error")
           [list_call sample_env (req_list "gid://shopify/Customer/123")]).
  - vm_compute. reflexivity.
  - apply elem_of_cons. now left.
Defined.

Lemma devis_list_upstream_failure_witness :
  exists calls,
    devis_list reject_objects sample_env (upstream_fails 404 "Not Found") (req_list "123") []
    = (Ok (error_response 500 "server_error"), calls).
Proof.
  apply (devis_list_upstream_failure reject_objects sample_env
           (upstream_fails 404 "Not Found") (req_list "123"));
    [vm_compute; reflexivity | reflexivity | reflexivity | intros c; reflexivity].
Defined.





Lemma devis_one_malformed_node_witness :
  devis_one reject_objects sample_env (upstream_json (payload_one node_null_edge))
    (req_one_items "5") []
  = (Ok (error_response 500 "server_error"), [one_call sample_env (req_one_items "5")]).
Proof.
  apply (devis_one_malformed_node reject_objects sample_env
           (upstream_json (payload_one node_null_edge)) (req_one_items "5")
           (VObj [("draftOrder", node_null_edge)]));
    vm_compute; reflexivity.
Defined.

Lemma first_version_sends_any_identifier_witness :
  exists resp,
    FirstVersion.devis reject_objects sample_env upstream_down (req_list "abc") []
    = (Ok resp, [first_call sample_env (req_list "abc") "abc"]).
Proof.
  apply (first_version_sends_any_identifier reject_objects sample_env upstream_down
           (req_list "abc") "abc");
    [vm_compute; reflexivity | reflexivity | discriminate].
Defined.

Lemma first_version_status_passthrough_witness :
  FirstVersion.devis reject_objects sample_env (upstream_fails 404 "Not Found")
    (req_list "gid://shopify/Customer/123") []
  = (Ok (error_response 404 "admin_api_error"),
     [first_call sample_env (req_list "gid://shopify/Customer/123") "123"]).
Proof.
  refine (proj1 (first_version_status_passthrough reject_objects sample_env
                   (upstream_fails 404 "Not Found") (req_list "gid://shopify/Customer/123")
                   "gid://shopify/Customer/123"
                   {| resp_status := 404; resp_text := Ok "Not Found";
                      resp_json := Throw (Exn "SyntaxError" "Unexpected token in JSON") |}
                   _ _ _ _ _) _);
    [vm_compute; reflexivity | reflexivity | discriminate | reflexivity | reflexivity
    | eexists; reflexivity].
Defined.

Lemma first_version_non_string_identifier_witness :
  FirstVersion.devis reject_objects sample_env upstream_null_node req_list_twice []
  = (Ok (error_response 500 "server_error"), []).
Proof.
  apply (first_version_non_string_identifier reject_objects sample_env upstream_null_node
           req_list_twice);
    [vm_compute; reflexivity | reflexivity | intros s; discriminate].
Defined.
